(** * jik: dropout and element-wise product layers, and the solver loop

    A shallow embedding of [core/layer_dropout.h], [core/layer_eltwise_mult.h]
    and [core/solver.h].

    - The template parameter [Dtype] is an interface ([Numeric]): the layers
      only use [+], [-], [*], [/], [<], [>] and
      [std::numeric_limits<Dtype>::epsilon()].
    - Tensors ([Mat]) live in a store and are referred to by [MatRef]
      ([std::shared_ptr<Mat<Dtype>>]), so that two inputs of a layer may be
      the same tensor.
    - Reading or writing through a null reference or outside a buffer is
      undefined in C++; the embedding answers [None] there.
    - [uint32_t] values are [Z] with the wrap-around written out. *)

From Stdlib Require Import ZArith QArith Lqa Lia String DecimalString.
From stdpp Require Import base option list.

Local Open Scope nat_scope.

(** ** The numeric type of the templates *)

(** What the sources ask of [Dtype].  [Dle] ([<=]) is not used by the code;
    it is there to state ranges.  The four laws hold of the IEEE types the
    templates are instantiated with ([float], [double]): a value is ordered
    (not a NaN) exactly when it is [<=] itself. *)
Class Numeric (Dtype : Type) := {
  D0 : Dtype;
  D1 : Dtype;
  Dadd : Dtype -> Dtype -> Dtype;
  Dsub : Dtype -> Dtype -> Dtype;
  Dmul : Dtype -> Dtype -> Dtype;
  Ddiv : Dtype -> Dtype -> Dtype;
  Dlt : Dtype -> Dtype -> bool;
  Dle : Dtype -> Dtype -> bool;
  Deps : Dtype;
  Dle_not_Dlt : forall x y, Dle x y = true -> Dlt y x = false;
  Dlt_of_not_Dle :
    forall x y, Dle x x = true -> Dle y y = true ->
                Dle x y = false -> Dlt y x = true;
  Dle_ordered : forall x y, Dle x y = true -> Dle x x = true /\ Dle y y = true;
  Deps_small : forall p, Dlt (Dsub D1 Deps) p = true -> Dlt p Deps = false
}.

(** [a > b] of the sources. *)
Definition Dgt {Dtype} `{Numeric Dtype} (a b : Dtype) : bool := Dlt b a.

(** ** 32-bit unsigned arithmetic *)

Definition wrap32 (z : Z) : Z := (z mod 2 ^ 32)%Z.

(** [std::to_string] of an unsigned value. *)
Definition to_string (z : Z) : string :=
  NilZero.string_of_uint (N.to_uint (Z.to_N z)).

(** ** Loops *)

(** [for (i = start; i < start + n; ++i) body], where [body] may fail. *)
Fixpoint for_loop {S : Type} (body : nat -> S -> option S)
    (i n : nat) (s : S) : option S :=
  match n with
  | O => Some s
  | Datatypes.S n' =>
      match body i s with
      | Some s' => for_loop body (Datatypes.S i) n' s'
      | None => None
      end
  end.

(** ** Results of code that may stop the process *)

(** [Check] and, when it says so, [Report] end the process. *)
Inductive Result (A : Type) : Type :=
  | Ok (a : A)
  | Terminated (msg : string)
  | Undefined.

Arguments Ok {A} a.
Arguments Terminated {A} msg.
Arguments Undefined {A}.

(** Modelled from the spec: [Check] is declared in [core/log.h], its body is
    not part of the sources; a failed check reports its message and
    terminates the process. *)
Definition Check (check : bool) (msg : string) : Result unit :=
  if check then Ok tt else Terminated msg.

Definition of_option {A : Type} (o : option A) : Result A :=
  match o with Some a => Ok a | None => Undefined end.

Definition rbind {A B : Type} (r : Result A) (k : A -> Result B) : Result B :=
  match r with
  | Ok a => k a
  | Terminated msg => Terminated msg
  | Undefined => Undefined
  end.

#[export] Instance Result_bind : MBind Result :=
  fun _ _ k r => rbind r k.

(** ** Tensors and the store *)

(** A reference to a tensor: an address in the store, or null. *)
Abbreviation MatRef := (option nat).

(** [State::phase] is an enumeration; its constants are not in the sources. *)
Record State := mkState { phase : Z }.

(** [Layer]: the name, the inputs (not owned) and the outputs. *)
Record Layer := mkLayer {
  Name : string;
  in_ : list MatRef;
  out_ : list MatRef
}.

Section Tensors.

Context {Dtype : Type} `{Numeric Dtype}.

(** The shape descriptor of a tensor and its number of elements. *)
Context {Shape : Type} (numel : Shape -> nat).

(** [Mat<Dtype>]: the shape, the values and the gradient. *)
Record Mat := mkMat {
  size : Shape;
  data : list Dtype;
  deriv : list Dtype
}.

(** The store: the tensors, by address. *)
Local Abbreviation Store := (list Mat).

Definition deref (st : Store) (p : MatRef) : option Mat :=
  match p with
  | Some a => st !! a
  | None => None
  end.

(** Update of the tensor a reference points to. *)
Definition modify (st : Store) (p : MatRef) (f : Mat -> Mat) : option Store :=
  match p with
  | Some a =>
      match st !! a with
      | Some m => Some (<[a := f m]> st)
      | None => None
      end
  | None => None
  end.

(** [std::make_shared<Mat<Dtype>>(...)]: a new address. *)
Definition make_shared (m : Mat) (st : Store) : MatRef * Store :=
  (Some (length st), st ++ [m]).

(** Modelled from the spec: the constructor of [Mat] is not part of the
    sources.  A tensor is created with the given shape and zeroed values
    ([layer_dropout.h]: "Create the mask and initialize it to 0").  The
    second argument, [true] when omitted, is taken to say whether the
    gradient buffer is allocated; no theorem depends on it. *)
Definition Mat_new (sz : Shape) (init_deriv : bool) : Mat :=
  {| size := sz;
     data := replicate (numel sz) D0;
     deriv := if init_deriv then replicate (numel sz) D0 else [] |}.

(** [Mat::Size()]: the number of elements. *)
Definition Mat_Size (m : Mat) : nat := numel (size m).

(** Modelled from the spec: [Mat::Set] and [Mat::Zero] are not part of the
    sources; they set every value to the given one, resp. to zero. *)
Definition Mat_Set (v : Dtype) (m : Mat) : Mat :=
  {| size := size m; data := replicate (length (data m)) v; deriv := deriv m |}.

Definition Mat_Zero (m : Mat) : Mat := Mat_Set D0 m.

Definition set_data (d : list Dtype) (m : Mat) : Mat :=
  {| size := size m; data := d; deriv := deriv m |}.

Definition set_deriv (d : list Dtype) (m : Mat) : Mat :=
  {| size := size m; data := data m; deriv := d |}.

(** [p->Data()[i]] and [p->DerivData()[i]], read and written. *)
Definition load_data (st : Store) (p : MatRef) (i : nat) : option Dtype :=
  match deref st p with
  | Some m => data m !! i
  | None => None
  end.

Definition load_deriv (st : Store) (p : MatRef) (i : nat) : option Dtype :=
  match deref st p with
  | Some m => deriv m !! i
  | None => None
  end.

Definition store_data (st : Store) (p : MatRef) (i : nat) (v : Dtype)
    : option Store :=
  match deref st p with
  | Some m =>
      if i <? length (data m)
      then modify st p (set_data (<[i := v]> (data m)))
      else None
  | None => None
  end.

Definition store_deriv (st : Store) (p : MatRef) (i : nat) (v : Dtype)
    : option Store :=
  match deref st p with
  | Some m =>
      if i <? length (deriv m)
      then modify st p (set_deriv (<[i := v]> (deriv m)))
      else None
  | None => None
  end.

(** A tensor whose buffers have the length its shape says. *)
Definition Mat_ok (m : Mat) : bool :=
  (length (data m) =? Mat_Size m) && (length (deriv m) =? Mat_Size m).

(** ** LayerEltwiseMult *)

(** The constructor: two inputs of the same size, one output of that size. *)
Definition LayerEltwiseMult_new (name : string) (inputs : list MatRef)
    (st : Store) : Result (Layer * Store) :=
  _ ← Check (length inputs =? 2)
            ("Layer '" ++ name ++ "' must have 2 inputs");
  a ← of_option (inputs !! 0 ≫= deref st);
  b ← of_option (inputs !! 1 ≫= deref st);
  _ ← Check (Mat_Size a =? Mat_Size b)
            ("Layer '" ++ name ++ "' inputs must have the same size");
  let '(o, st') := make_shared (Mat_new (size a) true) st in
  Ok ({| Name := name; in_ := inputs; out_ := <[0 := o]> (resize 1 None []) |},
      st').

(** One turn of the loop of [Forward]. *)
Definition EltwiseMult_Forward_body (o in1 in2 : MatRef) (i : nat)
    (st : Store) : option Store :=
  x ← load_data st in1 i;
  y ← load_data st in2 i;
  store_data st o i (Dmul x y).

Definition LayerEltwiseMult_Forward (l : Layer) (state : State) (st : Store)
    : option Store :=
  o ← out_ l !! 0;
  in1 ← in_ l !! 0;
  in2 ← in_ l !! 1;
  om ← deref st o;
  _ ← deref st in1;
  _ ← deref st in2;
  for_loop (EltwiseMult_Forward_body o in1 in2) 0 (Mat_Size om) st.

(** One turn of the loop of [Backward]: the second update reads the store
    the first one has written. *)
Definition EltwiseMult_Backward_body (o in1 in2 : MatRef) (i : nat)
    (st : Store) : option Store :=
  dv ← load_deriv st o i;
  x2 ← load_data st in2 i;
  d1 ← load_deriv st in1 i;
  st1 ← store_deriv st in1 i (Dadd d1 (Dmul x2 dv));
  x1 ← load_data st1 in1 i;
  d2 ← load_deriv st1 in2 i;
  store_deriv st1 in2 i (Dadd d2 (Dmul x1 dv)).

Definition LayerEltwiseMult_Backward (l : Layer) (state : State) (st : Store)
    : option Store :=
  o ← out_ l !! 0;
  in1 ← in_ l !! 0;
  in2 ← in_ l !! 1;
  om ← deref st o;
  _ ← deref st in1;
  _ ← deref st in2;
  for_loop (EltwiseMult_Backward_body o in1 in2) 0 (Mat_Size om) st.

(** ** LayerDropout *)

Record LayerDropout := mkLayerDropout {
  parent : Layer;
  drop_prob_ : Dtype;
  mask_ : MatRef
}.

(** Modelled from the spec: [Param] is not part of the sources.  It is a
    lookup of named values; a layer that misses a required one is a
    configuration error, which terminates the process. *)
Definition Param : Type := string -> option Dtype.

Definition Param_Get (param : Param) (key : string) : Result Dtype :=
  match param key with
  | Some v => Ok v
  | None => Terminated ("Missing parameter '" ++ key ++ "'")
  end.

(** The constructor: one input; a mask and one output of the input's shape. *)
Definition LayerDropout_new (name : string) (inputs : list MatRef)
    (param : Param) (st : Store) : Result (LayerDropout * Store) :=
  _ ← Check (length inputs =? 1)
            ("Layer '" ++ name ++ "' must have 1 input");
  p ← Param_Get param "drop_prob";
  a ← of_option (inputs !! 0 ≫= deref st);
  let '(mask, st1) := make_shared (Mat_new (size a) true) st in
  let '(o, st2) := make_shared (Mat_new (size a) true) st1 in
  Ok ({| parent := {| Name := name; in_ := inputs;
                      out_ := <[0 := o]> (resize 1 None []) |};
         drop_prob_ := p;
         mask_ := mask |},
      st2).

(** [State::PHASE_TRAIN]. *)
Context (PHASE_TRAIN : Z).

(** The scale of the kept elements. *)
Definition dropout_scale (p : Dtype) : Dtype := Ddiv D1 (Dsub D1 p).

(** The first loop of the random branch; [draws k] is what the [k]-th call
    of [dist(gen)] returns. *)
Definition Dropout_mask_body (mask : MatRef) (p : Dtype)
    (draws : nat -> Dtype) (k : nat) (st : Store) : option Store :=
  store_data st mask k (if Dlt (draws k) p then D0 else dropout_scale p).

(** The second loop of the random branch. *)
Definition Dropout_out_body (o i mask : MatRef) (k : nat) (st : Store)
    : option Store :=
  m ← load_data st mask k;
  x ← load_data st i k;
  store_data st o k (Dmul m x).

Definition LayerDropout_Forward (l : LayerDropout) (state : State)
    (draws : nat -> Dtype) (st : Store) : option Store :=
  o ← out_ (parent l) !! 0;
  i ← in_ (parent l) !! 0;
  if negb (phase state =? PHASE_TRAIN)%Z then
    im ← deref st i;
    modify st o (set_data (data im))
  else if Dlt (drop_prob_ l) Deps then
    im ← deref st i;
    st1 ← modify st o (set_data (data im));
    modify st1 (mask_ l) (Mat_Set D1)
  else if Dgt (drop_prob_ l) (Dsub D1 Deps) then
    st1 ← modify st o Mat_Zero;
    modify st1 (mask_ l) Mat_Zero
  else
    mm ← deref st (mask_ l);
    st1 ← for_loop (Dropout_mask_body (mask_ l) (drop_prob_ l) draws)
                   0 (Mat_Size mm) st;
    om ← deref st1 o;
    _ ← deref st1 i;
    for_loop (Dropout_out_body o i (mask_ l)) 0 (Mat_Size om) st1.

(** One turn of the loop of [Backward]. *)
Definition Dropout_Backward_body (o i mask : MatRef) (k : nat) (st : Store)
    : option Store :=
  dv ← load_deriv st o k;
  m ← load_data st mask k;
  d ← load_deriv st i k;
  st1 ← store_deriv st i k (Dadd d (Dmul m dv));
  x ← load_data st1 i k;
  dm ← load_deriv st1 mask k;
  store_deriv st1 mask k (Dadd dm (Dmul x dv)).

Definition LayerDropout_Backward (l : LayerDropout) (state : State)
    (st : Store) : option Store :=
  o ← out_ (parent l) !! 0;
  i ← in_ (parent l) !! 0;
  om ← deref st o;
  _ ← deref st i;
  _ ← deref st (mask_ l);
  for_loop (Dropout_Backward_body o i (mask_ l)) 0 (Mat_Size om) st.

(** ** Solver *)

(** [LogLevel] of [core/log.h]. *)
Inductive LogLevel := kInfo | kWarning | kError.

(** The messages [Train] reports, with their arguments. *)
Inductive Msg :=
  | MsgInvalidModel
  | MsgStep (step : Z) (lr loss : Dtype)
  | MsgAccuracy (step : Z) (accuracy : Dtype)
  | MsgLearningRate (step : Z) (lr_from lr_to scale : Dtype).

(** What [Train] does to the outside, in the order it does it. *)
Inductive Event :=
  | EvReport (level : LogLevel) (msg : Msg)
  | EvGetWeight
  | EvTrain
  | EvLearn (lr : Dtype)
  | EvTest
  | EvSave (file_name : string).

(** Modelled from the spec: [Report] is declared in [core/log.h], its body
    is not part of the sources; it emits the message. *)
Definition Report (level : LogLevel) (msg : Msg) (tr : list Event)
    : list Event :=
  tr ++ [EvReport level msg].

(** [core/log.h] says of [kError] that it "will terminate the process", the
    spec that [Report] only reports: whether a report of that level returns
    is left open. *)
Context (kError_terminates : bool).

(** [Model<Dtype>], an interface of which [Train] uses five methods.  They
    may change the model and the tensors of the store. *)
Class Model (M : Type) := {
  Model_GetWeight : M -> Store -> list MatRef -> list MatRef;
  Model_Train : M -> Store -> Dtype * M * Store;
  Model_Test : M -> Store -> Dtype * M * Store;
  Model_Save : M -> Store -> string -> bool * M * Store;
  Model_Name : M -> string
}.

Record Solver := mkSolver {
  weight_ : list MatRef;
  weight_prev_ : list MatRef;
  print_each_ : Z;
  test_each_ : Z;
  save_each_ : Z;
  lr_scale_each_ : Z;
  lr_scale_ : Dtype
}.

Definition set_weights (w wp : list MatRef) (s : Solver) : Solver :=
  {| weight_ := w; weight_prev_ := wp;
     print_each_ := print_each_ s; test_each_ := test_each_ s;
     save_each_ := save_each_ s; lr_scale_each_ := lr_scale_each_ s;
     lr_scale_ := lr_scale_ s |}.

Context {M : Type} `{Model M}.

(** [Solver::Learn], pure virtual and [const]: it may change the model and
    the tensors, not the solver. *)
Context (Learn : Solver -> M -> Dtype -> Store -> M * Store).

(** The body of the loop that fills [weight_prev_]. *)
Definition Train_prev_body (w : list MatRef) (i : nat)
    (s : list MatRef * Store) : option (list MatRef * Store) :=
  wi ← w !! i;
  wm ← deref s.2 wi;
  let '(r, st') := make_shared (Mat_new (size wm) false) s.2 in
  if i <? length s.1 then Some (<[i := r]> s.1, st') else None.

(** Lines 114-120: the weights and the tensors of their previous values.
    [GetWeight] is given the list that [weight_.clear()] has emptied;
    [resize] keeps what [weight_prev_] held, up to the new length. *)
Definition Train_setup (self : Solver) (model : M) (st : Store)
    : option (Solver * Store) :=
  let w := Model_GetWeight model st [] in
  let wp := resize (length w) None (weight_prev_ self) in
  s ← for_loop (Train_prev_body w) 0 (length w) (wp, st);
  Some (set_weights w s.1 self, s.2).

(** The variables of the loop of [Train], with the model, the store and
    the events so far. *)
Record LoopState := mkLoopState {
  print : Z;
  test : Z;
  save : Z;
  lr : Z;
  learning_rate : Dtype;
  model_now : M;
  heap_now : Store;
  trace_now : list Event
}.

Inductive StepResult :=
  | Continue (s : LoopState)
  | ReturnFalse (s : LoopState).

(** One turn of the loop of [Train] (lines 127-156). *)
Definition Train_body (self : Solver) (num_step step : Z) (s : LoopState)
    : StepResult :=
  let '(loss, m1, h1) := Model_Train (model_now s) (heap_now s) in
  let '(m2, h2) := Learn self m1 (learning_rate s) h1 in
  let tr := trace_now s ++ [EvTrain; EvLearn (learning_rate s)] in
  let final := (step =? wrap32 (num_step - 1))%Z in
  let step1 := wrap32 (step + 1) in
  let print1 := wrap32 (print s + 1) in
  let print_fires := (print_each_ self <=? print1)%Z || final in
  let tr := if print_fires
            then Report kInfo (MsgStep step1 (learning_rate s) loss) tr
            else tr in
  let print2 := if print_fires then 0%Z else print1 in
  let test1 := wrap32 (test s + 1) in
  let test_fires := (test_each_ self <=? test1)%Z || final in
  let '(m3, h3, tr) :=
    if test_fires
    then let '(acc, m, h) := Model_Test m2 h2 in
         (m, h, Report kInfo (MsgAccuracy step1 acc) (tr ++ [EvTest]))
    else (m2, h2, tr) in
  let test2 := if test_fires then 0%Z else test1 in
  let save1 := wrap32 (save s + 1) in
  let save_fires := (save_each_ self <=? save1)%Z || final in
  let file_name :=
    (Model_Name m3 ++ "_" ++ to_string step1 ++ ".model")%string in
  let '(saved, m4, h4) :=
    if save_fires then Model_Save m3 h3 file_name else (true, m3, h3) in
  let tr := if save_fires then tr ++ [EvSave file_name] else tr in
  if negb saved
  then ReturnFalse (mkLoopState print2 test2 save1 (lr s) (learning_rate s)
                                m4 h4 tr)
  else
    let save2 := if save_fires then 0%Z else save1 in
    let lr1 := wrap32 (lr s + 1) in
    let lr_fires := (lr_scale_each_ self <=? lr1)%Z in
    let rate := learning_rate s in
    let tr := if lr_fires
              then Report kInfo
                     (MsgLearningRate step1 rate (Dmul rate (lr_scale_ self))
                                      (lr_scale_ self)) tr
              else tr in
    let rate2 := if lr_fires then Dmul rate (lr_scale_ self) else rate in
    let lr2 := if lr_fires then 0%Z else lr1 in
    Continue (mkLoopState print2 test2 save2 lr2 rate2 m4 h4 tr).

(** [for (step = start; step < num_step; ++step)], with [n] turns left: the
    body changes neither [step] nor [num_step], so the loop that starts at
    0 makes [num_step] turns. *)
Fixpoint Train_loop (self : Solver) (num_step : Z) (n : nat) (step : Z)
    (s : LoopState) : StepResult :=
  match n with
  | O => Continue s
  | Datatypes.S n' =>
      match Train_body self num_step step s with
      | Continue s' => Train_loop self num_step n' (wrap32 (step + 1)) s'
      | ReturnFalse s' => ReturnFalse s'
      end
  end.

(** How a call of [Train] ends. *)
Inductive Exit :=
  | Returned (result : bool)
  | ProcessTerminated.

Record TrainEnd := mkTrainEnd {
  exit : Exit;
  solver_end : Solver;
  model_end : option M;
  heap_end : Store;
  trace_end : list Event
}.

(** The loop of [Train] and what follows it (lines 122-163), from the
    solver and the store that the set-up leaves. *)
Definition Train_steps (self1 : Solver) (m : M) (num_step : Z) (rate : Dtype)
    (st1 : Store) : TrainEnd :=
  match Train_loop self1 num_step (Z.to_nat num_step) 0%Z
          (mkLoopState 0 0 0 0 rate m st1 [EvGetWeight]) with
  | ReturnFalse s =>
      {| exit := Returned false;
         solver_end := self1;
         model_end := Some (model_now s);
         heap_end := heap_now s;
         trace_end := trace_now s |}
  | Continue s =>
      {| exit := Returned true;
         solver_end := set_weights [] [] self1;
         model_end := Some (model_now s);
         heap_end := heap_now s;
         trace_end := trace_now s |}
  end.

(** [Solver::Train]; the model is [None] for a null pointer.  [None] as a
    result: undefined behaviour (a weight of the model is a null or dangling
    reference). *)
Definition Train (self : Solver) (model : option M) (num_step : Z)
    (rate : Dtype) (st : Store) : option TrainEnd :=
  match model with
  | None =>
      Some {| exit := if kError_terminates then ProcessTerminated
                      else Returned false;
              solver_end := self;
              model_end := None;
              heap_end := st;
              trace_end := Report kError MsgInvalidModel [] |}
  | Some m =>
      s ← Train_setup self m st;
      Some (Train_steps s.1 m num_step rate s.2)
  end.

End Tensors.

Abbreviation Store := (list Mat) (only parsing).

(** * Specification *)

(** The first [k] elements of [new], then [old] from its [k]-th on. *)
Definition splice {A : Type} (k : nat) (new old : list A) : list A :=
  take k new ++ drop k old.

(** The layer with its two inputs exchanged. *)
Definition swap_inputs (l : Layer) : Layer :=
  {| Name := Name l;
     in_ := match in_ l with [a; b] => [b; a] | other => other end;
     out_ := out_ l |}.

Section Specification.

Context {Dtype : Type} `{Numeric Dtype} {Shape : Type} (numel : Shape -> nat).
Context {M : Type} `{Model (Dtype := Dtype) (Shape := Shape) M}.
Implicit Types st : list (Mat (Dtype := Dtype) (Shape := Shape)).
Implicit Types m im om mm : Mat (Dtype := Dtype) (Shape := Shape).
Implicit Types l : LayerDropout (Dtype := Dtype).
Implicit Types self : Solver (Dtype := Dtype).
Implicit Types s : LoopState (Dtype := Dtype) (Shape := Shape) (M := M).

(** ** Layers *)

(** [d + x * g], element by element. *)
Definition accumulate (d x g : list Dtype) : list Dtype :=
  zip_with Dadd d (zip_with Dmul x g).

(** What one turn of the two backward loops does, for the output [o] and
    the two factors [a] and [b]. *)
Definition product_rule_turn (o a b : MatRef) (k : nat) st
    : option (list Mat) :=
  dv ← load_deriv st o k;
  x2 ← load_data st b k;
  d1 ← load_deriv st a k;
  st1 ← store_deriv st a k (Dadd d1 (Dmul x2 dv));
  x1 ← load_data st1 a k;
  d2 ← load_deriv st1 b k;
  store_deriv st1 b k (Dadd d2 (Dmul x1 dv)).

(** A dropout layer as its constructor leaves it: one input [i], one output
    [o] and the mask, three tensors of one size. *)
Definition Dropout_ok numel l st (i o : MatRef) im om mm : Prop :=
  in_ (parent l) = [i] /\ out_ (parent l) = [o] /\
  i <> o /\ i <> mask_ l /\ o <> mask_ l /\
  deref st i = Some im /\ deref st o = Some om /\
  deref st (mask_ l) = Some mm /\
  Mat_ok numel im = true /\ Mat_ok numel om = true /\
  Mat_ok numel mm = true /\
  Mat_Size numel om = Mat_Size numel im /\
  Mat_Size numel mm = Mat_Size numel im.

(** The mask as the code decides it from the draws. *)
Definition drawn_mask (p : Dtype) (draws : nat -> Dtype) (n : nat)
    : list Dtype :=
  (fun k => if Dlt (draws k) p then D0 else dropout_scale p) <$> seq 0 n.

(** The mask as the spec words it: an element is kept, with the value
    [1 / (1 - p)], when its draw is [>= p], and is 0 otherwise. *)
Definition kept_mask (p : Dtype) (draws : nat -> Dtype) (n : nat)
    : list Dtype :=
  (fun k => if Dle p (draws k) then Ddiv D1 (Dsub D1 p) else D0) <$> seq 0 n.

(** The draws of the first [n] elements are in [[0, 1)]. *)
Definition draws_in_unit (draws : nat -> Dtype) (n : nat) : bool :=
  forallb (fun k => Dle D0 (draws k) && Dlt (draws k) D1) (seq 0 n).

(** ** Solver *)

(** How many events of a trace are of a given kind. *)
Definition count (f : Event (Dtype := Dtype) -> bool) (tr : list Event) : nat :=
  length (List.filter f tr).

Definition is_train (e : Event (Dtype := Dtype)) : bool :=
  match e with EvTrain => true | _ => false end.

(** The reports of the three actions, for the step of index [i]; the
    reports carry the index plus one. *)
Definition is_print_at (i : Z) (e : Event (Dtype := Dtype)) : bool :=
  match e with
  | EvReport kInfo (MsgStep n _ _) => (n =? i + 1)%Z
  | _ => false
  end.

Definition is_test_at (i : Z) (e : Event (Dtype := Dtype)) : bool :=
  match e with
  | EvReport kInfo (MsgAccuracy n _) => (n =? i + 1)%Z
  | _ => false
  end.

Definition is_decay_at (i : Z) (e : Event (Dtype := Dtype)) : bool :=
  match e with
  | EvReport kInfo (MsgLearningRate n _ _ _) => (n =? i + 1)%Z
  | _ => false
  end.

(** The steps at which the spec has an action fire, for a cadence. *)
Definition due (cadence i : Z) : bool := ((i + 1) mod cadence =? 0)%Z.

Definition due_or_final (cadence num_step i : Z) : bool :=
  (due cadence i || (i =? num_step - 1))%Z.

Definition one_if (b : bool) : nat := if b then 1 else 0.

Definition in_range (lo hi i : Z) : bool := ((lo <=? i) && (i <? hi))%Z.

Definition cadence_ok (c : Z) : bool := ((1 <=? c) && (c <? 2 ^ 32))%Z.

Definition cadences_ok (self : Solver (Dtype := Dtype)) : bool :=
  cadence_ok (print_each_ self) && cadence_ok (test_each_ self) &&
  cadence_ok (save_each_ self) && cadence_ok (lr_scale_each_ self).

(** Every weight of the model is a tensor of the store. *)
Definition weights_valid (w : list MatRef) st : bool :=
  forallb (fun r => match deref st r with Some _ => true | None => false end) w.

(** The steps a run has begun: the calls of [Model::Train]. *)
Definition steps_started (tr : list (Event (Dtype := Dtype))) : Z :=
  Z.of_nat (count is_train tr).

(** The reports of kind [f] in a trace: one for each index below [n] that
    [d] selects, and no other. *)
Definition fires_exactly (f : Z -> Event (Dtype := Dtype) -> bool)
    (tr : list Event) (n : Z) (d : Z -> bool) : Prop :=
  forall i : Z, count (f i) tr = one_if (in_range 0 n i && d i).

(** Print and test fire at the steps below [started] that are due or final,
    the decay at the steps below [finished] that are due. *)
Definition schedule (self : Solver (Dtype := Dtype)) (num_step : Z)
    (tr : list Event) (started finished : Z) : Prop :=
  fires_exactly is_print_at tr started
    (due_or_final (print_each_ self) num_step) /\
  fires_exactly is_test_at tr started
    (due_or_final (test_each_ self) num_step) /\
  fires_exactly is_decay_at tr finished (due (lr_scale_each_ self)).

(** The counters before the step of index [step], and after the last. *)
Definition counters_at self (num_step step : Z) s : Prop :=
  (step < num_step ->
   print s = step mod print_each_ self /\
   test s = step mod test_each_ self /\
   save s = step mod save_each_ self)%Z /\
  (step = num_step -> print s = 0 /\ test s = 0 /\ save s = 0)%Z /\
  lr s = (step mod lr_scale_each_ self)%Z.

(** The state a turn of the loop leaves, whether it goes on or returns. *)
Definition state_of (r : StepResult (Dtype := Dtype) (Shape := Shape) (M := M))
    : LoopState :=
  match r with Continue s | ReturnFalse s => s end.

End Specification.

(** * The constructor of the solver, [ClearDeriv] and runs of calls *)

Section SolverMore.

Context {Dtype : Type} `{Numeric Dtype} {Shape : Type}.
Context {M : Type} `{Model (Dtype := Dtype) (Shape := Shape) M}.
Implicit Types self : Solver (Dtype := Dtype).
Implicit Types s : LoopState (Dtype := Dtype) (Shape := Shape) (M := M).

(** [Solver::Solver]: the five settings; the two lists start empty. *)
Definition Solver_new (print_each test_each save_each lr_scale_each : Z)
    (lr_scale : Dtype) : Solver :=
  {| weight_ := []; weight_prev_ := [];
     print_each_ := print_each; test_each_ := test_each;
     save_each_ := save_each; lr_scale_each_ := lr_scale_each;
     lr_scale_ := lr_scale |}.

(** The four cadences are [uint32_t] values; 0 is one of them. *)
Definition cadence_uint32 (c : Z) : bool := ((0 <=? c) && (c <? 2 ^ 32))%Z.

Definition cadences_uint32 self : bool :=
  cadence_uint32 (print_each_ self) && cadence_uint32 (test_each_ self) &&
  cadence_uint32 (save_each_ self) && cadence_uint32 (lr_scale_each_ self).

(** A counter of cadence [c] reaches it at the step [i]: at every step when
    [c] is 0, else when [(i + 1) mod c] is 0. *)
Definition reached (c i : Z) : bool := ((c =? 0) || due c i)%Z.

(** Print, test and save fire when their counter reaches the cadence and at
    the last step. *)
Definition fires (c num_step i : Z) : bool :=
  (reached c i || (i =? num_step - 1))%Z.

(** The value of a counter of cadence [c] before the step [k]. *)
Definition counter_value (c k : Z) : Z :=
  (if c =? 0 then 0 else k mod c)%Z.

(** The decays before the step [k]. *)
Definition decays_before (c k : Z) : nat :=
  Z.to_nat (if c =? 0 then k else k / c)%Z.

(** A rate after [n] decays. *)
Definition scaled (rate scale : Dtype) (n : nat) : Dtype :=
  Nat.iter n (fun r => Dmul r scale) rate.

(** The events of one step, in their order: the step of the model, the
    update, then what fires of print, test, save and decay. *)
Definition step_events (step : Z) (rate scale loss acc : Dtype)
    (file_name : string) (print_fires test_fires save_fires decay_fires : bool)
    : list (Event (Dtype := Dtype)) :=
  [EvTrain; EvLearn rate]
  ++ (if print_fires then [EvReport kInfo (MsgStep (step + 1) rate loss)]
      else [])
  ++ (if test_fires
      then [EvTest; EvReport kInfo (MsgAccuracy (step + 1) acc)] else [])
  ++ (if save_fires then [EvSave file_name] else [])
  ++ (if decay_fires
      then [EvReport kInfo
              (MsgLearningRate (step + 1) rate (Dmul rate scale) scale)]
      else []).

(** The events of the step [k] of a run that began with the rate [rate0];
    [aborted]: the save of this step failed. *)
Definition step_block self (num_step : Z) (rate0 : Dtype) (k : Z)
    (aborted : bool) (block : list (Event (Dtype := Dtype))) : Prop :=
  exists loss acc (m : M),
    block = step_events k
              (scaled rate0 (lr_scale_ self)
                 (decays_before (lr_scale_each_ self) k))
              (lr_scale_ self) loss acc
              (Model_Name m ++ "_" ++ to_string (k + 1) ++ ".model")%string
              (fires (print_each_ self) num_step k)
              (fires (test_each_ self) num_step k)
              (fires (save_each_ self) num_step k)
              (negb aborted && reached (lr_scale_each_ self) k) /\
    (aborted = true -> fires (save_each_ self) num_step k = true).

(** The rates that [Learn] was called with, in order. *)
Definition learn_rates (tr : list (Event (Dtype := Dtype))) : list Dtype :=
  omap (fun e => match e with EvLearn r => Some r | _ => None end) tr.

(** The file names that [Save] was called with, in order. *)
Definition saved_names (tr : list (Event (Dtype := Dtype))) : list string :=
  omap (fun e => match e with EvSave n => Some n | _ => None end) tr.

(** The counters before the step [step], whatever the cadences. *)
Definition counters_before self (num_step step : Z) s : Prop :=
  (step < num_step ->
   print s = counter_value (print_each_ self) step /\
   test s = counter_value (test_each_ self) step /\
   save s = counter_value (save_each_ self) step)%Z /\
  lr s = counter_value (lr_scale_each_ self) step.

Definition is_aborted (e : TrainEnd (Dtype := Dtype) (Shape := Shape) (M := M))
    : bool :=
  match exit e with Returned false => true | _ => false end.

End SolverMore.

Section LayersMore.

Context {Dtype : Type} `{Numeric Dtype} {Shape : Type} (numel : Shape -> nat).
Context (PHASE_TRAIN : Z).
Implicit Types st : list (Mat (Dtype := Dtype) (Shape := Shape)).
Implicit Types m am bm im om mm : Mat (Dtype := Dtype) (Shape := Shape).
Implicit Types l : LayerDropout (Dtype := Dtype).

(** [deriv->Zero()]: every element of the gradient becomes 0. *)
Definition Mat_deriv_Zero m : Mat :=
  set_deriv (replicate (length (deriv m)) D0) m.

(** Modelled from the spec: [Layer::ClearDeriv] is in [core/layer.h], which
    is not part of the sources; it zeroes the gradient of each output. *)
Fixpoint Layer_ClearDeriv_outs (outs : list MatRef) st : option (list Mat) :=
  match outs with
  | [] => Some st
  | o :: outs' =>
      st1 ← modify st o Mat_deriv_Zero;
      Layer_ClearDeriv_outs outs' st1
  end.

Definition Layer_ClearDeriv (layer : Layer) st : option (list Mat) :=
  Layer_ClearDeriv_outs (out_ layer) st.

(** [LayerDropout::ClearDeriv]. *)
Definition LayerDropout_ClearDeriv l st : option (list Mat) :=
  st1 ← Layer_ClearDeriv (parent l) st;
  modify st1 (mask_ l) Mat_deriv_Zero.

(** The calls a graph makes on a layer. *)
Inductive Pass :=
  | DoForward (state : State) (draws : nat -> Dtype)
  | DoBackward (state : State)
  | DoClearDeriv.

Definition Dropout_pass l (p : Pass) st : option (list Mat) :=
  match p with
  | DoForward state draws =>
      LayerDropout_Forward numel PHASE_TRAIN l state draws st
  | DoBackward state => LayerDropout_Backward numel l state st
  | DoClearDeriv => LayerDropout_ClearDeriv l st
  end.

(** The calls of a list, one after the other. *)
Fixpoint Dropout_run l (ps : list Pass) st : option (list Mat) :=
  match ps with
  | [] => Some st
  | p :: ps' => st1 ← Dropout_pass l p st; Dropout_run l ps' st1
  end.

(** An element-wise product as its constructor leaves it: two inputs [a]
    and [b], which may be one tensor, and the output [o], of one size. *)
Definition EltwiseMult_ok (layer : Layer) st (a b o : MatRef) am bm om
    : Prop :=
  in_ layer = [a; b] /\ out_ layer = [o] /\ o <> a /\ o <> b /\
  deref st a = Some am /\ deref st b = Some bm /\ deref st o = Some om /\
  Mat_ok numel am = true /\ Mat_ok numel bm = true /\
  Mat_ok numel om = true /\
  Mat_Size numel am = Mat_Size numel om /\
  Mat_Size numel bm = Mat_Size numel om.

Definition EltwiseMult_pass (layer : Layer) (forward : bool) (state : State)
    st : option (list Mat) :=
  if forward then LayerEltwiseMult_Forward numel layer state st
  else LayerEltwiseMult_Backward numel layer state st.

Fixpoint EltwiseMult_run (layer : Layer) (ps : list (bool * State)) st
    : option (list Mat) :=
  match ps with
  | [] => Some st
  | p :: ps' =>
      st1 ← EltwiseMult_pass layer p.1 p.2 st;
      EltwiseMult_run layer ps' st1
  end.

End LayersMore.

(** * A numeric type and a model to run the code on *)

Definition Qlt_bool (x y : Q) : bool := negb (Qle_bool y x).

(** The [epsilon] of [double], 2^-52. *)
Definition Qeps : Q := 1 # 4503599627370496.

(** The rationals, every result in lowest terms. *)
#[export, refine] Instance Q_Numeric : Numeric Q := {|
  D0 := 0%Q;
  D1 := 1%Q;
  Dadd x y := Qred (x + y);
  Dsub x y := Qred (x - y);
  Dmul x y := Qred (x * y);
  Ddiv x y := Qred (x / y);
  Dlt := Qlt_bool;
  Dle := Qle_bool;
  Deps := Qeps
|}.
Proof.
  - intros x y Hxy. unfold Qlt_bool. by rewrite Hxy.
  - intros x y _ _ Hxy. unfold Qlt_bool. by rewrite Hxy.
  - intros x y _. split; apply Qle_bool_iff; apply Qle_refl.
  - intros p. unfold Qlt_bool. rewrite !negb_true_iff, !negb_false_iff.
    intros Hp. apply Qle_bool_iff.
    assert (~ (p <= Qred (1 - Qeps))%Q) as Hn.
    { intros Hle. apply Qle_bool_iff in Hle. congruence. }
    rewrite Qred_correct in Hn. unfold Qeps in *. lra.
Defined.

(** Shapes as lists of dimensions. *)
Definition dims_numel (dims : list nat) : nat := foldr Nat.mul 1%nat dims.

(** A vector with its values and its gradient. *)
Definition vec (values gradient : list Q) : Mat :=
  {| size := [length values]; data := values; deriv := gradient |}.

(** A model for the examples.  Its state is the list of the results of the
    calls of [Save] to come ([true] once the list is used up); its one
    weight is the first tensor of the store; [Train] and [Test] return a
    constant. *)
#[export] Instance Toy_Model
    : Model (Dtype := Q) (Shape := list nat) (list bool) := {|
  Model_GetWeight _ _ out := out ++ [Some 0%nat];
  Model_Train m st := ((1 # 2)%Q, m, st);
  Model_Test m st := ((3 # 4)%Q, m, st);
  Model_Save m st _ :=
    match m with
    | ok :: m' => (ok, m', st)
    | [] => (true, [], st)
    end;
  Model_Name _ := "toy"%string
|}.

(** An update rule that leaves the weights as they are. *)
Definition toy_Learn (self : Solver (Dtype := Q)) (m : list bool) (rate : Q)
    (st : list (Mat (Dtype := Q) (Shape := list nat)))
    : list bool * list Mat :=
  (m, st).

Definition toy_solver (print_each test_each save_each lr_scale_each : Z)
    : Solver (Dtype := Q) :=
  {| weight_ := []; weight_prev_ := [];
     print_each_ := print_each; test_each_ := test_each;
     save_each_ := save_each; lr_scale_each_ := lr_scale_each;
     lr_scale_ := (1 # 2)%Q |}.

Definition toy_store : list (Mat (Dtype := Q) (Shape := list nat)) :=
  [vec [1; 1]%Q [0; 0]%Q].

(** The product of [[2; 3]] and [[5; 7]], the gradient of the output being
    [[1; 1]]. *)
Definition mult_store : list (Mat (Dtype := Q) (Shape := list nat)) :=
  [vec [2; 3]%Q [0; 0]%Q; vec [5; 7]%Q [0; 0]%Q; vec [0; 0]%Q [1; 1]%Q].

Definition mult_layer : Layer :=
  {| Name := "mult"; in_ := [Some 0%nat; Some 1%nat]; out_ := [Some 2%nat] |}.

(** Dropout of [[1; 2; 3; 4]]: the input, the mask and the output, the
    gradient of the output being [[1; 1; 1; 1]]. *)
Definition drop_store : list (Mat (Dtype := Q) (Shape := list nat)) :=
  [vec [1; 2; 3; 4]%Q [0; 0; 0; 0]%Q;
   vec [0; 0; 0; 0]%Q [0; 0; 0; 0]%Q;
   vec [0; 0; 0; 0]%Q [1; 1; 1; 1]%Q].

Definition drop_layer (p : Q) : LayerDropout :=
  {| parent := {| Name := "drop"; in_ := [Some 0%nat]; out_ := [Some 2%nat] |};
     drop_prob_ := p;
     mask_ := Some 1%nat |}.

(** Draws that keep the elements 0 and 2 and drop 1 and 3 when [p] is one
    half. *)
Definition drop_draws (k : nat) : Q :=
  if Nat.even k then (3 # 4)%Q else (1 # 4)%Q.

(** A model whose [Save] never fails. *)
#[export] Instance Steady_Model
    : Model (Dtype := Q) (Shape := list nat) unit := {|
  Model_GetWeight _ _ out := out ++ [Some 0%nat];
  Model_Train m st := ((1 # 2)%Q, m, st);
  Model_Test m st := ((3 # 4)%Q, m, st);
  Model_Save m st _ := (true, m, st);
  Model_Name _ := "steady"%string
|}.

Definition steady_Learn (self : Solver (Dtype := Q)) (m : unit) (rate : Q)
    (st : list (Mat (Dtype := Q) (Shape := list nat)))
    : unit * list Mat :=
  (m, st).

(** * Proofs *)

Lemma for_loop_inv {S : Type} (P : nat -> S -> Prop)
    (body : nat -> S -> option S) (n i : nat) (s : S) :
  P i s ->
  (forall k t, i <= k < i + n -> P k t ->
     exists t', body k t = Some t' /\ P (Datatypes.S k) t') ->
  exists s', for_loop body i n s = Some s' /\ P (i + n) s'.
Proof.
  revert i s. induction n as [|n IH]; intros i s Hs Hbody; simpl.
  - exists s. by rewrite Nat.add_0_r.
  - destruct (Hbody i s) as (t & -> & Ht); [lia | done |].
    destruct (IH (Datatypes.S i) t) as (s' & Hrun & Hs'); [done | |].
    + intros k u Hk. apply Hbody. lia.
    + exists s'. split; [done|].
      by replace (i + Datatypes.S n) with (Datatypes.S i + n) by lia.
Qed.

Section ListFacts.
Context {A : Type}.
Implicit Types new old : list A.

Lemma splice_0 new old : splice 0 new old = old.
Proof. done. Qed.

Lemma splice_all new old k :
  length new = k -> length old = k -> splice k new old = new.
Proof.
  intros Hn Ho. unfold splice.
  rewrite take_ge, drop_ge by lia. apply app_nil_r.
Qed.

Lemma length_splice new old k :
  length new = length old -> length (splice k new old) = length old.
Proof.
  intros Hl. unfold splice. rewrite length_app, length_take, length_drop. lia.
Qed.

Lemma lookup_splice_here new old k :
  k <= length new -> splice k new old !! k = old !! k.
Proof.
  intros Hk. unfold splice.
  rewrite lookup_app_r by (rewrite length_take; lia).
  rewrite length_take, lookup_drop. f_equal. lia.
Qed.

Lemma insert_splice new old k x :
  new !! k = Some x -> k < length old ->
  <[k := x]> (splice k new old) = splice (Datatypes.S k) new old.
Proof.
  intros Hx Hk. unfold splice.
  destruct (lookup_lt_is_Some_2 old k Hk) as [y Hy].
  assert (length (take k new) = k) as Hlen.
  { rewrite length_take. apply lookup_lt_Some in Hx. lia. }
  rewrite (take_S_r _ _ _ Hx), (drop_S _ _ _ Hy), <- app_assoc.
  rewrite insert_app_r_alt by lia. rewrite Hlen, Nat.sub_diag. done.
Qed.

End ListFacts.


Section StoreFacts.
Context {Dtype : Type} `{Numeric Dtype} {Shape : Type} (numel : Shape -> nat).
Implicit Types st : list (Mat (Dtype := Dtype) (Shape := Shape)).
Implicit Types p q : MatRef.
Implicit Types m : Mat (Dtype := Dtype) (Shape := Shape).

Lemma modify_spec st p f m :
  deref st p = Some m ->
  exists st', modify st p f = Some st' /\
    length st' = length st /\
    deref st' p = Some (f m) /\
    forall q, q <> p -> deref st' q = deref st q.
Proof.
  destruct p as [a|]; simpl; [|done]. intros Hm. rewrite Hm.
  eexists; split; [done|]. rewrite length_insert. split; [done|]. split.
  - apply list_lookup_insert_eq. by eapply lookup_lt_Some.
  - intros [b|] Hq; simpl; [|done].
    apply list_lookup_insert_ne. congruence.
Qed.

Lemma store_data_spec st p i v m :
  deref st p = Some m -> i < length (data m) ->
  exists st', store_data st p i v = Some st' /\
    length st' = length st /\
    deref st' p = Some (set_data (<[i := v]> (data m)) m) /\
    forall q, q <> p -> deref st' q = deref st q.
Proof.
  intros Hm Hi. unfold store_data. rewrite Hm.
  apply Nat.ltb_lt in Hi. rewrite Hi. by apply modify_spec.
Qed.

Lemma store_deriv_spec st p i v m :
  deref st p = Some m -> i < length (deriv m) ->
  exists st', store_deriv st p i v = Some st' /\
    length st' = length st /\
    deref st' p = Some (set_deriv (<[i := v]> (deriv m)) m) /\
    forall q, q <> p -> deref st' q = deref st q.
Proof.
  intros Hm Hi. unfold store_deriv. rewrite Hm.
  apply Nat.ltb_lt in Hi. rewrite Hi. by apply modify_spec.
Qed.

Lemma load_data_spec st p i m x :
  deref st p = Some m -> data m !! i = Some x -> load_data st p i = Some x.
Proof. intros Hm Hx. unfold load_data. by rewrite Hm. Qed.

Lemma load_deriv_spec st p i m x :
  deref st p = Some m -> deriv m !! i = Some x -> load_deriv st p i = Some x.
Proof. intros Hm Hx. unfold load_deriv. by rewrite Hm. Qed.

(** Two stores of the same length with the same tensors are equal. *)
Lemma store_ext st1 st2 :
  (forall q, deref st1 q = deref st2 q) -> st1 = st2.
Proof. intros Hq. apply list_eq. intros i. apply (Hq (Some i)). Qed.

Lemma deref_make_shared st m :
  deref (make_shared m st).2 (make_shared m st).1 = Some m /\
  deref st (make_shared m st).1 = None /\
  forall q mq, deref st q = Some mq -> deref (make_shared m st).2 q = Some mq.
Proof.
  simpl. split; [|split].
  - rewrite lookup_app_r by lia. by rewrite Nat.sub_diag.
  - by apply lookup_ge_None.
  - intros [a|] mq; simpl; [|done]. intros Ha.
    rewrite lookup_app_l; [done|]. by eapply lookup_lt_Some.
Qed.

(** *** Loops that fill the values of a tensor *)

(** [o[k] = target[k]] for [k < n], as long as each turn is that one write. *)
Lemma write_loop body st o om target n :
  (forall k t v tm, target !! k = Some v -> deref t o = Some tm ->
     (forall q, q <> o -> deref t q = deref st q) ->
     body k t = store_data t o k v) ->
  deref st o = Some om ->
  length (data om) = n -> length target = n ->
  exists st', for_loop body 0 n st = Some st' /\
    deref st' o = Some (set_data target om) /\
    forall q, q <> o -> deref st' q = deref st q.
Proof.
  intros Hbody Ho Hlo Hlt.
  destruct (for_loop_inv
    (fun k t => deref t o = Some (set_data (splice k target (data om)) om) /\
                forall q, q <> o -> deref t q = deref st q)
    body n 0 st) as (st' & Hrun & Ho' & Hframe).
  - split; [|done]. rewrite splice_0. by destruct om.
  - intros k t Hk [Hto Htf].
    destruct (lookup_lt_is_Some_2 target k) as [v Hv]; [lia|].
    rewrite (Hbody k t v _ Hv Hto Htf).
    destruct (store_data_spec t o k v _ Hto) as (t' & -> & _ & Ho' & Hf').
    { simpl. rewrite length_splice; lia. }
    exists t'. split; [done|]. split.
    + rewrite Ho'. unfold set_data; simpl. do 2 f_equal.
      apply insert_splice; [done | lia].
    + intros q Hq. rewrite Hf' by done. by apply Htf.
  - exists st'. split; [done|]. split; [|done].
    rewrite Ho'. simpl. by rewrite splice_all.
Qed.

(** *** The loop of the backward pass of a product *)

Lemma lookup_accumulate d x g k dk xk gk :
  d !! k = Some dk -> x !! k = Some xk -> g !! k = Some gk ->
  accumulate d x g !! k = Some (Dadd dk (Dmul xk gk)).
Proof.
  intros Hd Hx Hg. unfold accumulate.
  rewrite !lookup_zip_with, Hd, Hx; simpl. by rewrite Hg.
Qed.

Lemma length_accumulate d x g n :
  length d = n -> length x = n -> length g = n ->
  length (accumulate d x g) = n.
Proof. intros. unfold accumulate. rewrite !length_zip_with. lia. Qed.

Lemma product_rule_loop_distinct st o a b om am bm n :
  a <> b -> o <> a -> o <> b ->
  deref st o = Some om -> deref st a = Some am -> deref st b = Some bm ->
  length (deriv om) = n ->
  length (data am) = n -> length (deriv am) = n ->
  length (data bm) = n -> length (deriv bm) = n ->
  exists st', for_loop (product_rule_turn o a b) 0 n st = Some st' /\
    deref st' a
      = Some (set_deriv (accumulate (deriv am) (data bm) (deriv om)) am) /\
    deref st' b
      = Some (set_deriv (accumulate (deriv bm) (data am) (deriv om)) bm) /\
    forall q, q <> a -> q <> b -> deref st' q = deref st q.
Proof.
  intros Hab Hoa Hob Ho Ha Hb Hlo Hla Hlda Hlb Hldb.
  set (ta := accumulate (deriv am) (data bm) (deriv om)).
  set (tb := accumulate (deriv bm) (data am) (deriv om)).
  assert (length ta = n) as Hlta by by apply length_accumulate.
  assert (length tb = n) as Hltb by by apply length_accumulate.
  destruct (for_loop_inv
    (fun k t =>
       deref t a = Some (set_deriv (splice k ta (deriv am)) am) /\
       deref t b = Some (set_deriv (splice k tb (deriv bm)) bm) /\
       forall q, q <> a -> q <> b -> deref t q = deref st q)
    (product_rule_turn o a b) n 0 st) as (st' & Hrun & Ha' & Hb' & Hframe).
  - rewrite !splice_0. by destruct am, bm.
  - intros k t Hk (Hta & Htb & Htf).
    destruct (lookup_lt_is_Some_2 (deriv om) k) as [dv Hdv]; [lia|].
    destruct (lookup_lt_is_Some_2 (data am) k) as [x1 Hx1]; [lia|].
    destruct (lookup_lt_is_Some_2 (data bm) k) as [x2 Hx2]; [lia|].
    destruct (lookup_lt_is_Some_2 (deriv am) k) as [d1 Hd1]; [lia|].
    destruct (lookup_lt_is_Some_2 (deriv bm) k) as [d2 Hd2]; [lia|].
    assert (deref t o = Some om) as Hto by (rewrite Htf; done).
    unfold product_rule_turn.
    rewrite (load_deriv_spec t o k om dv Hto Hdv); simpl.
    rewrite (load_data_spec t b k _ x2 Htb Hx2); simpl.
    rewrite (load_deriv_spec t a k _ d1 Hta); simpl;
      [|by rewrite lookup_splice_here by lia].
    destruct (store_deriv_spec t a k (Dadd d1 (Dmul x2 dv)) _ Hta)
      as (t1 & -> & _ & Ha1 & Hf1); simpl.
    { rewrite length_splice; lia. }
    rewrite (load_data_spec t1 a k _ x1 Ha1 Hx1); simpl.
    assert (deref t1 b = Some (set_deriv (splice k tb (deriv bm)) bm)) as Hb1.
    { rewrite Hf1 by done. done. }
    rewrite (load_deriv_spec t1 b k _ d2 Hb1); simpl;
      [|by rewrite lookup_splice_here by lia].
    destruct (store_deriv_spec t1 b k (Dadd d2 (Dmul x1 dv)) _ Hb1)
      as (t2 & -> & _ & Hb2 & Hf2); simpl.
    { rewrite length_splice; lia. }
    exists t2. split; [done|]. split; [|split].
    + rewrite Hf2, Ha1 by done. unfold set_deriv; simpl. do 2 f_equal.
      apply insert_splice; [|lia]. by apply lookup_accumulate.
    + rewrite Hb2. unfold set_deriv; simpl. do 2 f_equal.
      apply insert_splice; [|lia]. by apply lookup_accumulate.
    + intros q Hqa Hqb. rewrite Hf2, Hf1 by done. by apply Htf.
  - exists st'. split; [done|]. simpl in *.
    rewrite splice_all in Ha', Hb' by done. done.
Qed.

Lemma product_rule_loop_same st o a om am n :
  o <> a ->
  deref st o = Some om -> deref st a = Some am ->
  length (deriv om) = n -> length (data am) = n -> length (deriv am) = n ->
  exists st', for_loop (product_rule_turn o a a) 0 n st = Some st' /\
    deref st' a
      = Some (set_deriv
                (accumulate (accumulate (deriv am) (data am) (deriv om))
                            (data am) (deriv om)) am) /\
    forall q, q <> a -> deref st' q = deref st q.
Proof.
  intros Hoa Ho Ha Hlo Hla Hlda.
  set (t1 := accumulate (deriv am) (data am) (deriv om)).
  set (t2 := accumulate t1 (data am) (deriv om)).
  assert (length t1 = n) as Hlt1 by by apply length_accumulate.
  assert (length t2 = n) as Hlt2 by by apply length_accumulate.
  destruct (for_loop_inv
    (fun k t =>
       deref t a = Some (set_deriv (splice k t2 (deriv am)) am) /\
       forall q, q <> a -> deref t q = deref st q)
    (product_rule_turn o a a) n 0 st) as (st' & Hrun & Ha' & Hframe).
  - rewrite !splice_0. by destruct am.
  - intros k t Hk (Hta & Htf).
    destruct (lookup_lt_is_Some_2 (deriv om) k) as [dv Hdv]; [lia|].
    destruct (lookup_lt_is_Some_2 (data am) k) as [x Hx]; [lia|].
    destruct (lookup_lt_is_Some_2 (deriv am) k) as [d Hd]; [lia|].
    assert (deref t o = Some om) as Hto by (rewrite Htf; done).
    unfold product_rule_turn.
    rewrite (load_deriv_spec t o k om dv Hto Hdv); simpl.
    rewrite (load_data_spec t a k _ x Hta Hx); simpl.
    rewrite (load_deriv_spec t a k _ d Hta); simpl;
      [|by rewrite lookup_splice_here by lia].
    destruct (store_deriv_spec t a k (Dadd d (Dmul x dv)) _ Hta)
      as (u & -> & _ & Ha1 & Hf1); simpl.
    { rewrite length_splice; lia. }
    rewrite (load_data_spec u a k _ x Ha1 Hx); simpl.
    rewrite (load_deriv_spec u a k _ (Dadd d (Dmul x dv)) Ha1); simpl.
    2:{ apply list_lookup_insert_eq. rewrite length_splice; lia. }
    destruct (store_deriv_spec u a k
                (Dadd (Dadd d (Dmul x dv)) (Dmul x dv)) _ Ha1)
      as (v & -> & _ & Ha2 & Hf2); simpl.
    { rewrite length_insert, length_splice; lia. }
    exists v. split; [done|]. split.
    + rewrite Ha2. unfold set_deriv; simpl. do 2 f_equal.
      rewrite list_insert_insert_eq.
      apply insert_splice; [|lia].
      apply lookup_accumulate; [|done..]. by apply lookup_accumulate.
    + intros q Hq. rewrite Hf2, Hf1 by done. by apply Htf.
  - exists st'. split; [done|]. simpl in *.
    rewrite splice_all in Ha' by done. done.
Qed.

End StoreFacts.

Section EltwiseMult.
Context {Dtype : Type} `{Numeric Dtype} {Shape : Type} (numel : Shape -> nat).
Implicit Types st : list (Mat (Dtype := Dtype) (Shape := Shape)).
Implicit Types p q : MatRef.
Implicit Types m : Mat (Dtype := Dtype) (Shape := Shape).

Lemma Mat_ok_lengths m :
  Mat_ok numel m = true ->
  length (data m) = Mat_Size numel m /\ length (deriv m) = Mat_Size numel m.
Proof.
  unfold Mat_ok. rewrite andb_true_iff, !Nat.eqb_eq. done.
Qed.

(** The turn of either backward loop is that of [product_rule_turn]. *)
Lemma EltwiseMult_Backward_body_turn o a b k st :
  EltwiseMult_Backward_body o a b k st = product_rule_turn o a b k st.
Proof. done. Qed.

Lemma Dropout_Backward_body_turn o i mask k st :
  Dropout_Backward_body o i mask k st = product_rule_turn o i mask k st.
Proof. done. Qed.

Lemma EltwiseMult_Forward_spec (l : Layer) st state a b o am bm om :
  in_ l = [a; b] -> out_ l = [o] -> o <> a -> o <> b ->
  deref st a = Some am -> deref st b = Some bm -> deref st o = Some om ->
  Mat_ok numel am = true -> Mat_ok numel bm = true -> Mat_ok numel om = true ->
  Mat_Size numel am = Mat_Size numel om ->
  Mat_Size numel bm = Mat_Size numel om ->
  exists st', LayerEltwiseMult_Forward numel l state st = Some st' /\
    deref st' o = Some (set_data (zip_with Dmul (data am) (data bm)) om) /\
    forall q, q <> o -> deref st' q = deref st q.
Proof.
  intros Hin Hout Hoa Hob Ha Hb Ho Hao Hbo Hoo Hsa Hsb.
  apply Mat_ok_lengths in Hao as [Hla _], Hbo as [Hlb _], Hoo as [Hlo _].
  unfold LayerEltwiseMult_Forward. rewrite Hin, Hout; simpl.
  rewrite Ho, Ha, Hb; simpl.
  apply write_loop; try done; [|rewrite length_zip_with; lia].
  intros k t v tm Hv Htm Htf. unfold EltwiseMult_Forward_body.
  apply lookup_zip_with_Some in Hv as (x & y & -> & Hx & Hy).
  rewrite (load_data_spec t a k am x), (load_data_spec t b k bm y); try done.
  - by rewrite Htf.
  - by rewrite Htf.
Qed.

Lemma EltwiseMult_Backward_distinct (l : Layer) st state a b o am bm om :
  in_ l = [a; b] -> out_ l = [o] -> o <> a -> o <> b -> a <> b ->
  deref st a = Some am -> deref st b = Some bm -> deref st o = Some om ->
  Mat_ok numel am = true -> Mat_ok numel bm = true -> Mat_ok numel om = true ->
  Mat_Size numel am = Mat_Size numel om ->
  Mat_Size numel bm = Mat_Size numel om ->
  exists st', LayerEltwiseMult_Backward numel l state st = Some st' /\
    deref st' a
      = Some (set_deriv (accumulate (deriv am) (data bm) (deriv om)) am) /\
    deref st' b
      = Some (set_deriv (accumulate (deriv bm) (data am) (deriv om)) bm) /\
    forall q, q <> a -> q <> b -> deref st' q = deref st q.
Proof.
  intros Hin Hout Hoa Hob Hab Ha Hb Ho Hao Hbo Hoo Hsa Hsb.
  apply Mat_ok_lengths in Hao as [Hla Hlda], Hbo as [Hlb Hldb], Hoo as [_ Hlo].
  unfold LayerEltwiseMult_Backward. rewrite Hin, Hout; simpl.
  rewrite Ho, Ha, Hb; simpl.
  apply product_rule_loop_distinct; try done; lia.
Qed.

Lemma EltwiseMult_Backward_same (l : Layer) st state a o am om :
  in_ l = [a; a] -> out_ l = [o] -> o <> a ->
  deref st a = Some am -> deref st o = Some om ->
  Mat_ok numel am = true -> Mat_ok numel om = true ->
  Mat_Size numel am = Mat_Size numel om ->
  exists st', LayerEltwiseMult_Backward numel l state st = Some st' /\
    deref st' a
      = Some (set_deriv
                (accumulate (accumulate (deriv am) (data am) (deriv om))
                            (data am) (deriv om)) am) /\
    forall q, q <> a -> deref st' q = deref st q.
Proof.
  intros Hin Hout Hoa Ha Ho Hao Hoo Hsa.
  apply Mat_ok_lengths in Hao as [Hla Hlda], Hoo as [_ Hlo].
  unfold LayerEltwiseMult_Backward. rewrite Hin, Hout; simpl.
  rewrite Ho, Ha; simpl.
  apply product_rule_loop_same; try done; lia.
Qed.

(** C5.  Element-wise product of two tensors [a] and [b] of the size of the
    output [o]: [Forward] makes the values of the output the products
    [a[i] * b[i]] and changes nothing else; [Backward] adds
    [b[i] * o.deriv[i]] to [a.deriv[i]] and [a[i] * o.deriv[i]] to
    [b.deriv[i]] (both to the same gradient, one after the other, when [a]
    and [b] are one tensor) and changes nothing else; with the two inputs
    exchanged [Backward] leaves the same gradients in the same tensors; and
    neither pass looks at the phase. *)
Theorem EltwiseMult_product_rule (l : Layer) st a b o am bm om :
  in_ l = [a; b] -> out_ l = [o] -> o <> a -> o <> b ->
  deref st a = Some am -> deref st b = Some bm -> deref st o = Some om ->
  Mat_ok numel am = true -> Mat_ok numel bm = true -> Mat_ok numel om = true ->
  Mat_Size numel am = Mat_Size numel om ->
  Mat_Size numel bm = Mat_Size numel om ->
  forall state,
    (exists st', LayerEltwiseMult_Forward numel l state st = Some st' /\
       deref st' o = Some (set_data (zip_with Dmul (data am) (data bm)) om) /\
       forall q, q <> o -> deref st' q = deref st q) /\
    (exists st', LayerEltwiseMult_Backward numel l state st = Some st' /\
       (a <> b ->
        deref st' a
          = Some (set_deriv (accumulate (deriv am) (data bm) (deriv om)) am) /\
        deref st' b
          = Some (set_deriv (accumulate (deriv bm) (data am) (deriv om)) bm)) /\
       (a = b ->
        deref st' a
          = Some (set_deriv
                    (accumulate (accumulate (deriv am) (data am) (deriv om))
                                (data am) (deriv om)) am)) /\
       (forall q, q <> a -> q <> b -> deref st' q = deref st q) /\
       LayerEltwiseMult_Backward numel (swap_inputs l) state st = Some st') /\
    (forall state',
       LayerEltwiseMult_Forward numel l state' st
         = LayerEltwiseMult_Forward numel l state st /\
       LayerEltwiseMult_Backward numel l state' st
         = LayerEltwiseMult_Backward numel l state st).
Proof.
  intros Hin Hout Hoa Hob Ha Hb Ho Hao Hbo Hoo Hsa Hsb state.
  split; [by eapply EltwiseMult_Forward_spec|]. split; [|done].
  destruct (decide (a = b)) as [->|Hab].
  - assert (bm = am) as -> by congruence.
    destruct (EltwiseMult_Backward_same l st state b o am om)
      as (st' & Hrun & Ha' & Hf); try done.
    exists st'. repeat split; try done.
    + intros q Hq _. by apply Hf.
    + rewrite <- Hrun. unfold LayerEltwiseMult_Backward, swap_inputs.
      by rewrite Hin.
  - destruct (EltwiseMult_Backward_distinct l st state a b o am bm om)
      as (st' & Hrun & Ha' & Hb' & Hf); try done.
    destruct (EltwiseMult_Backward_distinct (swap_inputs l) st state
                b a o bm am om)
      as (st'' & Hrun' & Hb'' & Ha'' & Hf'); try done.
    { unfold swap_inputs. by rewrite Hin. }
    exists st'. repeat split; try done.
    rewrite Hrun'. f_equal. apply store_ext. intros q.
    destruct (decide (q = a)) as [->|Hqa]; [congruence|].
    destruct (decide (q = b)) as [->|Hqb]; [congruence|].
    rewrite Hf, Hf' by done. done.
Qed.

(** C9.  The constructor of the element-wise product stops the process in a
    failed check when it is not given two inputs, and when the two have
    different numbers of elements; given two tensors of one size it returns
    the layer, with one new output tensor of the shape of the first input
    (so of that size), zeroed, and keeps the tensors there were. *)
Theorem LayerEltwiseMult_new_spec (name : string) (inputs : list MatRef) st :
  (length inputs <> 2 ->
   LayerEltwiseMult_new numel name inputs st
     = Terminated ("Layer '" ++ name ++ "' must have 2 inputs")) /\
  (forall a b am bm,
     inputs = [a; b] -> deref st a = Some am -> deref st b = Some bm ->
     Mat_Size numel am <> Mat_Size numel bm ->
     LayerEltwiseMult_new numel name inputs st
       = Terminated ("Layer '" ++ name ++ "' inputs must have the same size")) /\
  (forall a b am bm,
     inputs = [a; b] -> deref st a = Some am -> deref st b = Some bm ->
     Mat_Size numel am = Mat_Size numel bm ->
     exists o st',
       LayerEltwiseMult_new numel name inputs st
         = Ok ({| Name := name; in_ := [a; b]; out_ := [o] |}, st') /\
       deref st o = None /\
       deref st' o = Some (Mat_new numel (size am) true) /\
       Mat_Size numel (Mat_new numel (size am) true) = Mat_Size numel am /\
       Mat_Size numel (Mat_new numel (size am) true) = Mat_Size numel bm /\
       Mat_ok numel (Mat_new numel (size am) true) = true /\
       forall q mq, deref st q = Some mq -> deref st' q = Some mq).
Proof.
  unfold LayerEltwiseMult_new. split; [|split].
  - intros Hlen. apply Nat.eqb_neq in Hlen. by rewrite Hlen.
  - intros a b am bm -> Ha Hb Hne. simpl. rewrite Ha, Hb; simpl.
    apply Nat.eqb_neq in Hne. by rewrite Hne.
  - intros a b am bm -> Ha Hb Heq. simpl. rewrite Ha, Hb; simpl.
    rewrite Heq, Nat.eqb_refl; simpl.
    destruct (deref_make_shared st (Mat_new numel (size am) true))
      as (Hnew & Hfresh & Hkeep).
    eexists _, _. split; [done|]. split; [done|]. split; [done|].
    split; [done|]. split; [done|]. split; [|done].
    unfold Mat_ok, Mat_new, Mat_Size; simpl.
    by rewrite length_replicate, Nat.eqb_refl.
Qed.

End EltwiseMult.

Section Dropout.
Context {Dtype : Type} `{Numeric Dtype} {Shape : Type} (numel : Shape -> nat).
Context (PHASE_TRAIN : Z).
Implicit Types st : list (Mat (Dtype := Dtype) (Shape := Shape)).
Implicit Types q : MatRef.
Implicit Types m : Mat (Dtype := Dtype) (Shape := Shape).
Implicit Types l : LayerDropout (Dtype := Dtype).

Lemma length_drawn_mask p draws n : length (drawn_mask p draws n) = n.
Proof. unfold drawn_mask. by rewrite length_fmap, length_seq. Qed.

Lemma lookup_drawn_mask p draws n k v :
  drawn_mask p draws n !! k = Some v ->
  v = if Dlt (draws k) p then D0 else dropout_scale p.
Proof.
  unfold drawn_mask. rewrite list_lookup_fmap.
  intros Hk. apply fmap_Some in Hk as (j & Hj & ->).
  apply lookup_seq in Hj as [-> _]. done.
Qed.

Lemma drawn_mask_kept p draws n :
  Dle p p = true -> draws_in_unit draws n = true ->
  drawn_mask p draws n = kept_mask p draws n.
Proof.
  intros Hp Hd. unfold drawn_mask, kept_mask.
  apply list_fmap_ext. intros k j Hj.
  apply lookup_seq in Hj as [Hj Hk]. simpl in Hj. subst j.
  assert (Dle (draws k) (draws k) = true) as Hdk.
  { unfold draws_in_unit in Hd. rewrite forallb_forall in Hd.
    specialize (Hd k). rewrite andb_true_iff in Hd.
    destruct Hd as [Hd _]; [apply in_seq; lia|].
    by apply Dle_ordered in Hd as [_ ?]. }
  destruct (Dle p (draws k)) eqn:Hle.
  - by rewrite (Dle_not_Dlt _ _ Hle).
  - by rewrite (Dlt_of_not_Dle _ _ Hp Hdk Hle).
Qed.

Lemma Mat_ok_set_data m d :
  Mat_ok numel m = true -> length d = Mat_Size numel m ->
  Mat_ok numel (set_data d m) = true.
Proof.
  unfold Mat_ok, Mat_Size; simpl. rewrite !andb_true_iff, !Nat.eqb_eq.
  intros [_ ?] ?. done.
Qed.

Lemma Dropout_Forward_not_training l st i o im om mm state draws :
  Dropout_ok numel l st i o im om mm -> phase state <> PHASE_TRAIN ->
  exists st',
    LayerDropout_Forward numel PHASE_TRAIN l state draws st = Some st' /\
    deref st' o = Some (set_data (data im) om) /\
    forall q, q <> o -> deref st' q = deref st q.
Proof.
  intros (Hin & Hout & Hio & Him & Hom & Hi & Ho & Hm & _) Hph.
  unfold LayerDropout_Forward. rewrite Hin, Hout; simpl.
  apply Z.eqb_neq in Hph. rewrite Hph; simpl. rewrite Hi; simpl.
  destruct (modify_spec st o (set_data (data im)) om Ho)
    as (st' & -> & _ & Ho' & Hf).
  by exists st'.
Qed.

Lemma Dropout_Forward_no_drop l st i o im om mm state draws :
  Dropout_ok numel l st i o im om mm -> phase state = PHASE_TRAIN ->
  Dlt (drop_prob_ l) Deps = true ->
  exists st',
    LayerDropout_Forward numel PHASE_TRAIN l state draws st = Some st' /\
    deref st' o = Some (set_data (data im) om) /\
    deref st' (mask_ l) = Some (Mat_Set D1 mm) /\
    forall q, q <> o -> q <> mask_ l -> deref st' q = deref st q.
Proof.
  intros (Hin & Hout & Hio & Him & Hom & Hi & Ho & Hm & _) Hph Hp.
  unfold LayerDropout_Forward. rewrite Hin, Hout; simpl.
  rewrite Hph, Z.eqb_refl, Hp; simpl. rewrite Hi; simpl.
  destruct (modify_spec st o (set_data (data im)) om Ho)
    as (st1 & -> & _ & Ho1 & Hf1); simpl.
  destruct (modify_spec st1 (mask_ l) (Mat_Set D1) mm)
    as (st2 & -> & _ & Hm2 & Hf2).
  { rewrite Hf1; done. }
  exists st2. split; [done|]. split; [|split; [done|]].
  - rewrite Hf2; done.
  - intros q Hqo Hqm. rewrite Hf2, Hf1; done.
Qed.

Lemma Dropout_Forward_drop_all l st i o im om mm state draws :
  Dropout_ok numel l st i o im om mm -> phase state = PHASE_TRAIN ->
  Dgt (drop_prob_ l) (Dsub D1 Deps) = true ->
  exists st',
    LayerDropout_Forward numel PHASE_TRAIN l state draws st = Some st' /\
    deref st' o = Some (Mat_Zero om) /\
    deref st' (mask_ l) = Some (Mat_Zero mm) /\
    forall q, q <> o -> q <> mask_ l -> deref st' q = deref st q.
Proof.
  intros (Hin & Hout & Hio & Him & Hom & Hi & Ho & Hm & _) Hph Hp.
  unfold LayerDropout_Forward. rewrite Hin, Hout; simpl.
  rewrite Hph, Z.eqb_refl; simpl.
  rewrite (Deps_small _ Hp), Hp.
  destruct (modify_spec st o Mat_Zero om Ho)
    as (st1 & -> & _ & Ho1 & Hf1); simpl.
  destruct (modify_spec st1 (mask_ l) Mat_Zero mm)
    as (st2 & -> & _ & Hm2 & Hf2).
  { rewrite Hf1; done. }
  exists st2. split; [done|]. split; [|split; [done|]].
  - rewrite Hf2; done.
  - intros q Hqo Hqm. rewrite Hf2, Hf1; done.
Qed.

Lemma Dropout_Forward_random l st i o im om mm state draws :
  Dropout_ok numel l st i o im om mm -> phase state = PHASE_TRAIN ->
  Dlt (drop_prob_ l) Deps = false ->
  Dgt (drop_prob_ l) (Dsub D1 Deps) = false ->
  let mask := drawn_mask (drop_prob_ l) draws (Mat_Size numel im) in
  exists st',
    LayerDropout_Forward numel PHASE_TRAIN l state draws st = Some st' /\
    deref st' (mask_ l) = Some (set_data mask mm) /\
    deref st' o = Some (set_data (zip_with Dmul mask (data im)) om) /\
    forall q, q <> o -> q <> mask_ l -> deref st' q = deref st q.
Proof.
  intros (Hin & Hout & Hio & Him & Hom & Hi & Ho & Hm & Hiok & Hook & Hmok
          & Hso & Hsm) Hph Hlo Hhi mask.
  apply Mat_ok_lengths in Hiok as [Hli _], Hook as [Hlo' _], Hmok as [Hlm _].
  unfold LayerDropout_Forward. rewrite Hin, Hout; simpl.
  rewrite Hph, Z.eqb_refl, Hlo, Hhi; simpl. rewrite Hm; simpl.
  destruct (write_loop
    (Dropout_mask_body (mask_ l) (drop_prob_ l) draws) st (mask_ l) mm mask
    (Mat_Size numel mm)) as (st1 & -> & Hm1 & Hf1); try done.
  { intros k t v tm Hv _ _. apply lookup_drawn_mask in Hv as ->. done. }
  { unfold mask. rewrite length_drawn_mask. lia. }
  simpl. rewrite !Hf1 by done. rewrite Ho, Hi; simpl.
  destruct (write_loop
    (Dropout_out_body o i (mask_ l)) st1 o om (zip_with Dmul mask (data im))
    (Mat_Size numel om)) as (st2 & -> & Ho2 & Hf2); try done.
  { intros k t v tm Hv _ Htf. unfold Dropout_out_body.
    apply lookup_zip_with_Some in Hv as (x & y & -> & Hx & Hy).
    rewrite (load_data_spec t (mask_ l) k (set_data mask mm) x); try done.
    - simpl. rewrite (load_data_spec t i k im y); try done.
      rewrite Htf, Hf1; done.
    - rewrite Htf; done. }
  { by rewrite Hf1. }
  { rewrite length_zip_with. unfold mask. rewrite length_drawn_mask. lia. }
  exists st2. split; [done|]. split; [|split; [done|]].
  - rewrite Hf2; done.
  - intros q Hqo Hqm. rewrite Hf2, Hf1; done.
Qed.

(** [Forward] returns in every phase and for every probability; it keeps the
    layer as built and writes no gradient. *)
Lemma Dropout_Forward_total l st i o im om mm state draws :
  Dropout_ok numel l st i o im om mm ->
  exists st' om' mm',
    LayerDropout_Forward numel PHASE_TRAIN l state draws st = Some st' /\
    Dropout_ok numel l st' i o im om' mm' /\
    deriv om' = deriv om /\ deriv mm' = deriv mm /\
    forall q, q <> o -> q <> mask_ l -> deref st' q = deref st q.
Proof.
  intros Hok.
  pose proof Hok as (Hin & Hout & Hio & Him & Hom & Hi & Ho & Hm & Hiok & Hook
                     & Hmok & Hso & Hsm).
  pose proof (Mat_ok_lengths numel _ Hiok) as [Hli _].
  pose proof (Mat_ok_lengths numel _ Hmok) as [Hlm _].
  destruct (decide (phase state = PHASE_TRAIN)) as [Hph|Hph].
  - destruct (Dlt (drop_prob_ l) Deps) eqn:Hlo;
      [|destruct (Dgt (drop_prob_ l) (Dsub D1 Deps)) eqn:Hhi].
    + destruct (Dropout_Forward_no_drop l st i o im om mm state draws)
        as (st' & Hrun & Ho' & Hm' & Hf); try done.
      exists st', (set_data (data im) om), (Mat_Set D1 mm).
      split; [done|]. split; [|done].
      unfold Dropout_ok. rewrite !Hf by done.
      repeat split; try done.
      * apply Mat_ok_set_data; [done | lia].
      * apply (Mat_ok_set_data mm); [done|].
        rewrite length_replicate. done.
    + destruct (Dropout_Forward_drop_all l st i o im om mm state draws)
        as (st' & Hrun & Ho' & Hm' & Hf); try done.
      exists st', (Mat_Zero om), (Mat_Zero mm).
      split; [done|]. split; [|done].
      unfold Dropout_ok. rewrite !Hf by done.
      pose proof (Mat_ok_lengths numel _ Hook) as [Hlo' _].
      repeat split; try done.
      * apply (Mat_ok_set_data om); [done|]. by rewrite length_replicate.
      * apply (Mat_ok_set_data mm); [done|]. by rewrite length_replicate.
    + destruct (Dropout_Forward_random l st i o im om mm state draws)
        as (st' & Hrun & Hm' & Ho' & Hf); try done.
      exists st',
        (set_data (zip_with Dmul
                     (drawn_mask (drop_prob_ l) draws (Mat_Size numel im))
                     (data im)) om),
        (set_data (drawn_mask (drop_prob_ l) draws (Mat_Size numel im)) mm).
      split; [done|]. split; [|done].
      unfold Dropout_ok. rewrite !Hf by done.
      repeat split; try done.
      * apply Mat_ok_set_data; [done|].
        rewrite length_zip_with, length_drawn_mask. lia.
      * apply Mat_ok_set_data; [done|]. rewrite length_drawn_mask. lia.
  - destruct (Dropout_Forward_not_training l st i o im om mm state draws)
      as (st' & Hrun & Ho' & Hf); try done.
    exists st', (set_data (data im) om), mm.
    split; [done|]. split; [|split; [done|split; [done|]]].
    + assert (mask_ l <> o) as Hmo by congruence.
      unfold Dropout_ok. rewrite (Hf i Hio), (Hf _ Hmo).
      repeat split; try done. apply Mat_ok_set_data; [done | lia].
    + intros q Hq _. by apply Hf.
Qed.

Lemma Dropout_Backward_spec l st i o im om mm state :
  Dropout_ok numel l st i o im om mm ->
  exists st', LayerDropout_Backward numel l state st = Some st' /\
    deref st' i
      = Some (set_deriv (accumulate (deriv im) (data mm) (deriv om)) im) /\
    deref st' (mask_ l)
      = Some (set_deriv (accumulate (deriv mm) (data im) (deriv om)) mm) /\
    forall q, q <> i -> q <> mask_ l -> deref st' q = deref st q.
Proof.
  intros (Hin & Hout & Hio & Him & Hom & Hi & Ho & Hm & Hiok & Hook & Hmok
          & Hso & Hsm).
  apply Mat_ok_lengths in Hiok as [Hli Hldi], Hook as [_ Hldo],
    Hmok as [Hlm Hldm].
  unfold LayerDropout_Backward. rewrite Hin, Hout; simpl.
  rewrite Ho, Hi, Hm; simpl.
  apply (product_rule_loop_distinct st o i (mask_ l) om im mm);
    try done; lia.
Qed.

Lemma Mat_ok_new (sz : Shape) :
  Mat_ok numel (Mat_new numel sz true : Mat (Dtype := Dtype)) = true.
Proof.
  unfold Mat_ok, Mat_new, Mat_Size; simpl.
  by rewrite length_replicate, Nat.eqb_refl.
Qed.

(** The constructor builds a layer that is [Dropout_ok]. *)
Lemma LayerDropout_new_ok (name : string) (param : Param) st i im p :
  param "drop_prob"%string = Some p ->
  deref st i = Some im -> Mat_ok numel im = true ->
  exists l st' o,
    LayerDropout_new numel name [i] param st = Ok (l, st') /\
    drop_prob_ l = p /\
    Dropout_ok numel l st' i o im (Mat_new numel (size im) true)
               (Mat_new numel (size im) true).
Proof.
  intros Hp Hi Hok. unfold LayerDropout_new, Param_Get; simpl.
  rewrite Hp, Hi; simpl.
  eexists _, _, _. split; [done|]. split; [done|].
  assert (length st < length (st ++ [Mat_new numel (size im) true])) as Hlt.
  { rewrite length_app; simpl. lia. }
  destruct i as [a|]; [|done]. simpl in Hi.
  pose proof (lookup_lt_Some _ _ _ Hi) as Ha.
  unfold Dropout_ok; simpl.
  repeat split; try done; try (intros [=]; lia).
  - rewrite !lookup_app_l; [done | lia | rewrite length_app; simpl; lia].
  - simpl. rewrite lookup_app_r by lia. by rewrite Nat.sub_diag.
  - rewrite lookup_app_l by lia.
    rewrite lookup_app_r by lia. by rewrite Nat.sub_diag.
  - apply Mat_ok_new.
  - apply Mat_ok_new.
Qed.

(** C3.  Training phase, [epsilon <= p <= 1 - epsilon], draws in [[0, 1)]:
    [Forward] returns; element [k] of the mask is [1 / (1 - p)] when the
    [k]-th draw is [>= p] and 0 otherwise; the values of the output are
    [mask[k] * input[k]]; no other tensor changes, and no gradient. *)
Theorem Dropout_Forward_training_draws l st i o im om mm state draws :
  Dropout_ok numel l st i o im om mm -> phase state = PHASE_TRAIN ->
  Dle Deps (drop_prob_ l) = true ->
  Dle (drop_prob_ l) (Dsub D1 Deps) = true ->
  draws_in_unit draws (Mat_Size numel im) = true ->
  let mask := kept_mask (drop_prob_ l) draws (Mat_Size numel im) in
  exists st',
    LayerDropout_Forward numel PHASE_TRAIN l state draws st = Some st' /\
    deref st' (mask_ l) = Some (set_data mask mm) /\
    deref st' o = Some (set_data (zip_with Dmul mask (data im)) om) /\
    forall q, q <> o -> q <> mask_ l -> deref st' q = deref st q.
Proof.
  intros Hok Hph Hlo Hhi Hd mask.
  pose proof (Dle_ordered _ _ Hlo) as [_ Hp].
  unfold mask. rewrite <- (drawn_mask_kept _ _ _ Hp Hd).
  apply (Dropout_Forward_random l st i o im om mm); try done.
  - by apply Dle_not_Dlt.
  - unfold Dgt. by apply Dle_not_Dlt.
Qed.

(** C4.  Whatever the phase, [Backward] returns and adds
    [mask[k] * o.deriv[k]] to [input.deriv[k]] and [input[k] * o.deriv[k]]
    to [mask.deriv[k]], to what these gradients held, and changes nothing
    else; and so it does after [Forward], run in any phase, for any
    probability and any draws, with the mask that this [Forward] left. *)
Theorem Dropout_Backward_accumulates l st i o im om mm state :
  Dropout_ok numel l st i o im om mm ->
  (exists st', LayerDropout_Backward numel l state st = Some st' /\
     deref st' i
       = Some (set_deriv (accumulate (deriv im) (data mm) (deriv om)) im) /\
     deref st' (mask_ l)
       = Some (set_deriv (accumulate (deriv mm) (data im) (deriv om)) mm) /\
     forall q, q <> i -> q <> mask_ l -> deref st' q = deref st q) /\
  (forall state_f draws,
     exists st1 om1 mm1 st2,
       LayerDropout_Forward numel PHASE_TRAIN l state_f draws st = Some st1 /\
       deref st1 i = Some im /\ deref st1 o = Some om1 /\
       deref st1 (mask_ l) = Some mm1 /\
       deriv om1 = deriv om /\ deriv mm1 = deriv mm /\
       LayerDropout_Backward numel l state st1 = Some st2 /\
       deref st2 i
         = Some (set_deriv (accumulate (deriv im) (data mm1) (deriv om)) im) /\
       deref st2 (mask_ l)
         = Some (set_deriv (accumulate (deriv mm) (data im) (deriv om)) mm1) /\
       forall q, q <> i -> q <> mask_ l -> deref st2 q = deref st1 q).
Proof.
  intros Hok. split; [by apply (Dropout_Backward_spec l st i o im om mm)|].
  intros state_f draws.
  destruct (Dropout_Forward_total l st i o im om mm state_f draws Hok)
    as (st1 & om1 & mm1 & Hrun & Hok1 & Hdo & Hdm & _).
  destruct (Dropout_Backward_spec l st1 i o im om1 mm1 state Hok1)
    as (st2 & Hback & Hi2 & Hm2 & Hf2).
  pose proof Hok1 as (_ & _ & _ & _ & _ & Hi1 & Ho1 & Hm1 & _).
  exists st1, om1, mm1, st2. rewrite <- Hdo, <- Hdm. done.
Qed.

(** C6.  Training phase.  With [p < epsilon], [Forward] makes the values of
    the output those of the input and every element of the mask 1; with
    [p > 1 - epsilon] it makes every element of the output and of the mask
    0.  Nothing else changes. *)
Theorem Dropout_Forward_training_extremes l st i o im om mm state draws :
  Dropout_ok numel l st i o im om mm -> phase state = PHASE_TRAIN ->
  let n := Mat_Size numel im in
  (Dlt (drop_prob_ l) Deps = true ->
   exists st',
     LayerDropout_Forward numel PHASE_TRAIN l state draws st = Some st' /\
     deref st' o = Some (set_data (data im) om) /\
     deref st' (mask_ l) = Some (set_data (replicate n D1) mm) /\
     forall q, q <> o -> q <> mask_ l -> deref st' q = deref st q) /\
  (Dgt (drop_prob_ l) (Dsub D1 Deps) = true ->
   exists st',
     LayerDropout_Forward numel PHASE_TRAIN l state draws st = Some st' /\
     deref st' o = Some (set_data (replicate n D0) om) /\
     deref st' (mask_ l) = Some (set_data (replicate n D0) mm) /\
     forall q, q <> o -> q <> mask_ l -> deref st' q = deref st q).
Proof.
  intros Hok Hph n.
  pose proof Hok as (_ & _ & _ & _ & _ & _ & _ & _ & _ & Hook & Hmok & Hso
                     & Hsm).
  apply Mat_ok_lengths in Hook as [Hlo _], Hmok as [Hlm _].
  assert (length (data om) = n) as Hon by (unfold n; lia).
  assert (length (data mm) = n) as Hmn by (unfold n; lia).
  split; intros Hp.
  - destruct (Dropout_Forward_no_drop l st i o im om mm state draws)
      as (st' & Hrun & Ho' & Hm' & Hf); try done.
    exists st'. unfold Mat_Set in Hm'. rewrite Hmn in Hm'. done.
  - destruct (Dropout_Forward_drop_all l st i o im om mm state draws)
      as (st' & Hrun & Ho' & Hm' & Hf); try done.
    exists st'. unfold Mat_Zero, Mat_Set in Ho', Hm'.
    rewrite Hon in Ho'. rewrite Hmn in Hm'. done.
Qed.

(** C7.  Outside the training phase, whatever the probability and the
    draws, [Forward] makes the values of the output those of the input and
    changes nothing else: the mask keeps its values and its gradient. *)
Theorem Dropout_Forward_inference l st i o im om mm state draws :
  Dropout_ok numel l st i o im om mm -> phase state <> PHASE_TRAIN ->
  exists st',
    LayerDropout_Forward numel PHASE_TRAIN l state draws st = Some st' /\
    deref st' o = Some (set_data (data im) om) /\
    deref st' (mask_ l) = Some mm /\
    forall q, q <> o -> deref st' q = deref st q.
Proof.
  intros Hok Hph.
  destruct (Dropout_Forward_not_training l st i o im om mm state draws)
    as (st' & Hrun & Ho' & Hf); try done.
  pose proof Hok as (_ & _ & _ & _ & Hom & _ & _ & Hm & _).
  exists st'. split; [done|]. split; [done|]. split; [|done].
  rewrite Hf; [done | congruence].
Qed.

End Dropout.

Section SolverFacts.
Context {Dtype : Type} `{Numeric Dtype} {Shape : Type} (numel : Shape -> nat).
Context (kError_terminates : bool).
Context {M : Type} `{Model (Dtype := Dtype) (Shape := Shape) M}.
Context (Learn : Solver (Dtype := Dtype) -> M -> Dtype ->
                 list (Mat (Dtype := Dtype) (Shape := Shape)) ->
                 M * list (Mat (Dtype := Dtype) (Shape := Shape))).
Implicit Types (self : Solver (Dtype := Dtype)).
Implicit Types (s : LoopState (Dtype := Dtype) (Shape := Shape) (M := M)).

Local Open Scope Z_scope.

Lemma count_app f (tr1 tr2 : list (Event (Dtype := Dtype))) :
  count f (tr1 ++ tr2) = (count f tr1 + count f tr2)%nat.
Proof. unfold count. by rewrite List.filter_app, length_app. Qed.

Lemma wrap32_small z : 0 <= z < 2 ^ 32 -> wrap32 z = z.
Proof. intros Hz. unfold wrap32. by apply Z.mod_small. Qed.

(** A counter that follows the index of the step modulo the cadence. *)
Lemma counter_turn c k :
  1 <= c -> 0 <= k ->
  (c <=? k mod c + 1) = due c k /\
  (due c k = true -> (k + 1) mod c = 0) /\
  (due c k = false -> (k + 1) mod c = k mod c + 1).
Proof.
  intros Hc Hk. unfold due.
  pose proof (Z.mod_pos_bound k c ltac:(lia)) as Hr.
  pose proof (Z.div_mod k c ltac:(lia)) as Hdiv.
  destruct (Z.eq_dec (k mod c + 1) c) as [Heq|Hne].
  - assert ((k + 1) mod c = 0) as Hz.
    { symmetry. apply (Z.mod_unique_pos _ _ (k / c + 1)); lia. }
    rewrite Hz. split; [|done]. apply Z.leb_le. lia.
  - assert ((k + 1) mod c = k mod c + 1) as Hs.
    { symmetry. apply (Z.mod_unique_pos _ _ (k / c)); lia. }
    rewrite Hs. split; [|split; [|done]].
    + transitivity false; [apply Z.leb_gt; lia|].
      symmetry. apply Z.eqb_neq. lia.
    + intros Hd. apply Z.eqb_eq in Hd. lia.
Qed.

Lemma cadence_ok_bounds c : cadence_ok c = true -> 1 <= c < 2 ^ 32.
Proof. unfold cadence_ok. rewrite andb_true_iff. lia. Qed.

Lemma cadences_ok_bounds self :
  cadences_ok self = true ->
  1 <= print_each_ self < 2 ^ 32 /\ 1 <= test_each_ self < 2 ^ 32 /\
  1 <= save_each_ self < 2 ^ 32 /\ 1 <= lr_scale_each_ self < 2 ^ 32.
Proof.
  unfold cadences_ok. rewrite !andb_true_iff.
  intros [[[? ?] ?] ?]. auto using cadence_ok_bounds.
Qed.

(** A counter's turn in the loop: it fires when due or when the step is the
    last, and is then 0; otherwise it has gone up by one. *)
Lemma counter_fires c cnt num_step step :
  1 <= c < 2 ^ 32 -> 0 <= step < num_step -> num_step < 2 ^ 32 ->
  cnt = step mod c ->
  let fires := (c <=? wrap32 (cnt + 1)) || (step =? wrap32 (num_step - 1)) in
  fires = due_or_final c num_step step /\
  (step + 1 < num_step ->
   (if fires then 0 else wrap32 (cnt + 1)) = (step + 1) mod c) /\
  (step + 1 = num_step -> fires = true).
Proof.
  intros Hc Hstep Hn -> fires.
  pose proof (Z.mod_pos_bound step c ltac:(lia)) as Hr.
  destruct (counter_turn c step) as (Hle & Hd1 & Hd0); [lia..|].
  assert (fires = due_or_final c num_step step) as Hf.
  { unfold fires, due_or_final.
    rewrite !wrap32_small by lia. by rewrite Hle. }
  split; [done|]. rewrite Hf. unfold due_or_final. split.
  - intros Hlt. replace (step =? num_step - 1) with false
      by (symmetry; apply Z.eqb_neq; lia).
    rewrite orb_false_r. destruct (due c step) eqn:Hd.
    + by rewrite Hd1.
    + rewrite wrap32_small by lia. by rewrite Hd0.
  - intros Heq. replace (step =? num_step - 1) with true
      by (symmetry; apply Z.eqb_eq; lia).
    apply orb_true_r.
Qed.


Lemma lr_fires_due c cnt step :
  1 <= c < 2 ^ 32 -> 0 <= step -> cnt = step mod c ->
  let fires := c <=? wrap32 (cnt + 1) in
  fires = due c step /\
  (if fires then 0 else wrap32 (cnt + 1)) = (step + 1) mod c.
Proof.
  intros Hc Hstep -> fires.
  pose proof (Z.mod_pos_bound step c ltac:(lia)) as Hr.
  destruct (counter_turn c step) as (Hle & Hd1 & Hd0); [lia..|].
  assert (fires = due c step) as Hf.
  { unfold fires. rewrite wrap32_small by lia. done. }
  split; [done|]. rewrite Hf. destruct (due c step) eqn:Hd.
  - by rewrite Hd1.
  - rewrite wrap32_small by lia. by rewrite Hd0.
Qed.

Lemma one_if_at (b : bool) (i step : Z) (d : Z -> bool) :
  d step = b ->
  one_if ((i =? step) && b) = one_if ((i =? step) && d i).
Proof.
  intros <-. destruct (Z.eqb_spec i step) as [->|]; done.
Qed.

Ltac count_turn i step :=
  unfold Report; rewrite ?count_app; unfold count; simpl;
  destruct (Z.eqb_spec i step) as [->|?];
  [ rewrite ?Z.eqb_refl
  | rewrite ?(proj2 (Z.eqb_neq (step + 1) (i + 1))) by lia ];
  simpl; lia.

Lemma Train_body_spec self num_step step s :
  cadences_ok self = true -> 0 <= step < num_step -> num_step < 2 ^ 32 ->
  counters_at self num_step step s ->
  let r := Train_body Learn self num_step step s in
  let s' := state_of r in
  count is_train (trace_now s') = (count is_train (trace_now s) + 1)%nat /\
  (forall i, count (is_print_at i) (trace_now s')
     = (count (is_print_at i) (trace_now s)
        + one_if ((i =? step)%Z
                  && due_or_final (print_each_ self) num_step i))%nat) /\
  (forall i, count (is_test_at i) (trace_now s')
     = (count (is_test_at i) (trace_now s)
        + one_if ((i =? step)%Z
                  && due_or_final (test_each_ self) num_step i))%nat) /\
  match r with
  | Continue _ =>
      counters_at self num_step (step + 1) s' /\
      forall i, count (is_decay_at i) (trace_now s')
        = (count (is_decay_at i) (trace_now s)
           + one_if ((i =? step)%Z && due (lr_scale_each_ self) i))%nat
  | ReturnFalse _ =>
      forall i, count (is_decay_at i) (trace_now s')
        = count (is_decay_at i) (trace_now s)
  end.
Proof.
  intros Hcad Hstep Hn (Hlt & _ & Hlr).
  apply cadences_ok_bounds in Hcad as (Hpe & Hte & Hse & Hle).
  destruct Hlt as (Hp & Ht & Hs); [lia|].
  destruct (counter_fires _ _ num_step step Hpe Hstep Hn Hp)
    as (Hpf & Hpn & Hpl).
  destruct (counter_fires _ _ num_step step Hte Hstep Hn Ht)
    as (Htf & Htn & Htl).
  destruct (counter_fires _ _ num_step step Hse Hstep Hn Hs)
    as (Hsf & Hsn & Hsl).
  destruct (lr_fires_due _ _ step Hle ltac:(lia) Hlr) as (Hlf & Hln).
  cbv zeta in *.
  unfold Train_body.
  destruct (Model_Train (model_now s) (heap_now s)) as [[loss m1] h1].
  destruct (Learn self m1 (learning_rate s) h1) as [m2 h2].
  rewrite (wrap32_small (step + 1)) by lia.
  set (pf := (print_each_ self <=? wrap32 (print s + 1))
             || (step =? wrap32 (num_step - 1))) in *.
  set (tf := (test_each_ self <=? wrap32 (test s + 1))
             || (step =? wrap32 (num_step - 1))) in *.
  set (sf := (save_each_ self <=? wrap32 (save s + 1))
             || (step =? wrap32 (num_step - 1))) in *.
  set (lf := lr_scale_each_ self <=? wrap32 (lr s + 1)) in *.
  clearbody pf tf sf lf.
  assert (forall i, one_if ((i =? step) && pf)
            = one_if ((i =? step)
                      && due_or_final (print_each_ self) num_step i)) as Hpi
    by (intros i; by apply one_if_at).
  assert (forall i, one_if ((i =? step) && tf)
            = one_if ((i =? step)
                      && due_or_final (test_each_ self) num_step i)) as Hti
    by (intros i; by apply one_if_at).
  assert (forall i, one_if ((i =? step) && lf)
            = one_if ((i =? step) && due (lr_scale_each_ self) i)) as Hli
    by (intros i; by apply one_if_at).
  clear Hpf Htf Hsf Hlf.
  destruct tf; [destruct (Model_Test m2 h2) as [[acc m3] h3]|];
    (destruct sf;
     [destruct (Model_Save _ _ _) as [[[|] m4] h4]|]); simpl.
  all: destruct pf, lf; simpl.
  all: (split; [unfold Report; rewrite ?count_app; unfold count; simpl; lia|]).
  all: (split; [intros i; rewrite <- Hpi; count_turn i step|]).
  all: (split; [intros i; rewrite <- Hti; count_turn i step|]).
  all: try (intros i; count_turn i step).
  all: (split; [|intros i; rewrite <- Hli; count_turn i step]).
  all: unfold counters_at; simpl.
  all: split; [intros Hlt; specialize (Hpn Hlt); specialize (Htn Hlt);
               specialize (Hsn Hlt); done|].
  all: split; [|done].
  all: intros Heq; specialize (Hpl Heq); specialize (Htl Heq);
       specialize (Hsl Heq); done.
Qed.


Lemma one_if_range_empty (lo i : Z) (d : bool) :
  one_if (in_range lo lo i && d) = 0%nat.
Proof.
  unfold in_range. destruct (Z.leb_spec lo i), (Z.ltb_spec i lo); simpl;
    try done; lia.
Qed.

Lemma one_if_range_first (lo k i : Z) (d : bool) :
  0 <= k ->
  Nat.add (one_if ((i =? lo) && d))
          (one_if (in_range (lo + 1) (lo + 1 + k) i && d))
  = one_if (in_range lo (lo + (k + 1)) i && d).
Proof.
  intros Hk. unfold in_range.
  destruct (Z.eqb_spec i lo), (Z.leb_spec (lo + 1) i),
    (Z.ltb_spec i (lo + 1 + k)), (Z.leb_spec lo i),
    (Z.ltb_spec i (lo + (k + 1))), d; simpl; try done; lia.
Qed.

(** The loop, from the step of index [step] with [n] turns to go: the steps
    it begins ([started]) and the steps it goes through ([finished]), with
    the reports of each kind. *)
Lemma Train_loop_spec self num_step n step s :
  cadences_ok self = true ->
  0 <= step -> step + Z.of_nat n <= num_step -> num_step < 2 ^ 32 ->
  counters_at self num_step step s ->
  let r := Train_loop Learn self num_step n step s in
  let s' := state_of r in
  exists started finished : Z,
    match r with
    | Continue _ =>
        started = Z.of_nat n /\ finished = started /\
        counters_at self num_step (step + Z.of_nat n) s'
    | ReturnFalse _ =>
        1 <= started <= Z.of_nat n /\ finished = started - 1
    end /\
    count is_train (trace_now s')
      = (count is_train (trace_now s) + Z.to_nat started)%nat /\
    forall i,
      count (is_print_at i) (trace_now s')
        = (count (is_print_at i) (trace_now s)
           + one_if (in_range step (step + started) i
                     && due_or_final (print_each_ self) num_step i))%nat /\
      count (is_test_at i) (trace_now s')
        = (count (is_test_at i) (trace_now s)
           + one_if (in_range step (step + started) i
                     && due_or_final (test_each_ self) num_step i))%nat /\
      count (is_decay_at i) (trace_now s')
        = (count (is_decay_at i) (trace_now s)
           + one_if (in_range step (step + finished) i
                     && due (lr_scale_each_ self) i))%nat.
Proof.
  intros Hcad. revert step s.
  induction n as [|n IH]; intros step s Hstep Hend Hn Hinv r s'.
  - exists 0, 0. subst r s'. simpl. split.
    { split; [done|]. split; [done|]. by rewrite Z.add_0_r. }
    split; [lia|]. intros i.
    rewrite Z.add_0_r, !one_if_range_empty. lia.
  - pose proof (Train_body_spec self num_step step s Hcad ltac:(lia) Hn Hinv)
      as Hb.
    cbv zeta in Hb. subst r s'. simpl.
    destruct (Train_body Learn self num_step step s) as [s1|s1] eqn:Hbody;
      simpl in Hb; destruct Hb as (Htr & Hpr & Hte & Hb).
    + destruct Hb as (Hinv1 & Hde).
      rewrite wrap32_small by lia.
      specialize (IH (step + 1) s1 ltac:(lia) ltac:(lia) Hn Hinv1).
      cbv zeta in IH. destruct IH as (started & finished & Hr & Htr' & Hcnt).
      exists (started + 1), (finished + 1).
      destruct (Train_loop Learn self num_step n (step + 1) s1) as [s2|s2];
        simpl in *.
      * destruct Hr as (-> & -> & Hinv2).
        split.
        { split; [lia|]. split; [done|].
          match goal with
          | |- counters_at _ _ ?x _ =>
              by replace x with (step + 1 + Z.of_nat n) by lia
          end. }
        split; [lia|]. intros i.
        destruct (Hcnt i) as (-> & -> & ->).
        rewrite Hpr, Hte, Hde.
        rewrite <- !(one_if_range_first step (Z.of_nat n) i) by lia. lia.
      * destruct Hr as (Hst & ->).
        split; [lia|]. split; [lia|]. intros i.
        destruct (Hcnt i) as (-> & -> & ->).
        rewrite Hpr, Hte, Hde.
        rewrite <- !(one_if_range_first step started i) by lia.
        rewrite <- (one_if_range_first step (started - 1) i) by lia. lia.
    + exists 1, 0. split; [lia|]. split; [simpl; lia|]. intros i.
      rewrite Hpr, Hte, Hb. rewrite Z.add_0_r, one_if_range_empty.
      rewrite <- !(one_if_range_first step 0 i) by lia.
      rewrite Z.add_0_r, !one_if_range_empty. lia.
Qed.


Local Close Scope Z_scope.

Lemma weights_valid_lookup (w : list MatRef)
    (st : list (Mat (Dtype := Dtype) (Shape := Shape))) k r :
  weights_valid w st = true -> w !! k = Some r ->
  exists wm, deref st r = Some wm.
Proof.
  unfold weights_valid. rewrite forallb_forall. intros Hall Hk.
  specialize (Hall r). destruct (deref st r) as [wm|]; [by exists wm|].
  discriminate Hall. apply list_elem_of_In. by eapply list_elem_of_lookup_2.
Qed.

(** The loop that allocates the tensors of the previous values. *)
Lemma Train_prev_loop (w wp : list MatRef)
    (st : list (Mat (Dtype := Dtype) (Shape := Shape))) :
  weights_valid w st = true -> length wp = length w ->
  exists wp' st',
    for_loop (Train_prev_body numel w) 0 (length w) (wp, st)
      = Some (wp', st') /\
    length wp' = length w /\
    (forall q mq, deref st q = Some mq -> deref st' q = Some mq) /\
    forall i r wm, w !! i = Some r -> deref st r = Some wm ->
      wp' !! i = Some (Some (length st + i)) /\
      st' !! (length st + i) = Some (Mat_new numel (size wm) false).
Proof.
  intros Hvalid Hlen.
  destruct (for_loop_inv
    (fun k (t : list MatRef * list Mat) =>
       length t.1 = length w /\ length t.2 = length st + k /\
       (forall q mq, deref st q = Some mq -> deref t.2 q = Some mq) /\
       forall i r wm, i < k -> w !! i = Some r -> deref st r = Some wm ->
         t.1 !! i = Some (Some (length st + i)) /\
         t.2 !! (length st + i) = Some (Mat_new numel (size wm) false))
    (Train_prev_body numel w) (length w) 0 (wp, st))
    as ([wp' st'] & Hrun & Hl1 & Hl2 & Hkeep & Hnew).
  - simpl. split; [done|]. split; [lia|]. split; [done|]. intros; lia.
  - intros k [wpk stk] Hk (Hl1 & Hl2 & Hkeep & Hnew). simpl in *.
    destruct (lookup_lt_is_Some_2 w k) as [r Hr]; [lia|].
    destruct (weights_valid_lookup w st k r Hvalid Hr) as [wm Hwm].
    unfold Train_prev_body; simpl. rewrite Hr; simpl.
    rewrite (Hkeep _ _ Hwm); simpl.
    assert ((k <? length wpk) = true) as -> by (apply Nat.ltb_lt; lia).
    eexists. split; [done|]. simpl.
    split; [by rewrite length_insert|].
    split; [rewrite length_app; simpl; lia|]. split.
    + intros [a|] mq Hq; [|done]. simpl in *.
      specialize (Hkeep (Some a) mq Hq). simpl in Hkeep.
      rewrite lookup_app_l; [done|]. by eapply lookup_lt_Some.
    + intros i r' wm' Hi Hr' Hwm'.
      destruct (decide (i = k)) as [->|Hik].
      * assert (r' = r) as -> by congruence.
        assert (wm' = wm) as -> by congruence.
        rewrite list_lookup_insert_eq by lia. rewrite Hl2. split; [done|].
        rewrite lookup_app_r by lia.
        by replace (length st + k - length stk) with 0%nat by lia.
      * destruct (Hnew i r' wm' ltac:(lia) Hr' Hwm') as [Hwp Hst].
        rewrite list_lookup_insert_ne by done. split; [done|].
        rewrite lookup_app_l; [done|]. by eapply lookup_lt_Some.
  - exists wp', st'. simpl in *. split; [done|]. split; [done|].
    split; [done|]. intros i r wm Hr Hwm. apply (Hnew i r wm); [|done..].
    by eapply lookup_lt_Some.
Qed.

(** The set-up of [Train] returns, and what it leaves. *)
Lemma Train_setup_returns self (m : M)
    (st : list (Mat (Dtype := Dtype) (Shape := Shape))) :
  weights_valid (Model_GetWeight m st []) st = true ->
  let w := Model_GetWeight m st [] in
  exists wp' st',
    Train_setup numel self m st = Some (set_weights w wp' self, st') /\
    length wp' = length w /\
    (forall q mq, deref st q = Some mq -> deref st' q = Some mq) /\
    forall i r wm, w !! i = Some r -> deref st r = Some wm ->
      wp' !! i = Some (Some (length st + i)) /\
      st' !! (length st + i) = Some (Mat_new numel (size wm) false).
Proof.
  intros Hvalid w.
  destruct (Train_prev_loop w (resize (length w) None (weight_prev_ self)) st)
    as (wp' & st' & Hrun & Hlen & Hkeep & Hnew);
    [done | by rewrite length_resize |].
  exists wp', st'. split; [|done].
  unfold Train_setup. fold w. by rewrite Hrun.
Qed.

(** C8.  With a model whose weights are tensors of the store, the set-up of
    [Train] (and so every call of [Train] with a model) returns; [weight_]
    is then what [GetWeight] gives for the emptied list, whatever
    [weight_] held; [weight_prev_] has the length of [weight_]; its [i]-th
    entry is a new tensor with the shape of the [i]-th weight and all
    values zero; the tensors there were are kept. *)
Theorem Train_setup_spec self (m : M)
    (st : list (Mat (Dtype := Dtype) (Shape := Shape))) :
  weights_valid (Model_GetWeight m st []) st = true ->
  let w := Model_GetWeight m st [] in
  exists self' st',
    Train_setup numel self m st = Some (self', st') /\
    (forall num_step rate,
       Train numel kError_terminates Learn self (Some m) num_step rate st
         = Some (Train_steps Learn self' m num_step rate st')) /\
    weight_ self' = w /\
    length (weight_prev_ self') = length w /\
    (forall i r wm, w !! i = Some r -> deref st r = Some wm ->
       exists pm,
         weight_prev_ self' !! i = Some (Some (length st + i)) /\
         deref st (Some (length st + i)) = None /\
         deref st' (Some (length st + i)) = Some pm /\
         size pm = size wm /\
         data pm = replicate (Mat_Size numel wm) D0) /\
    (forall q mq, deref st q = Some mq -> deref st' q = Some mq).
Proof.
  intros Hvalid w.
  destruct (Train_setup_returns self m st Hvalid)
    as (wp' & st' & Hsetup & Hlen & Hkeep & Hnew).
  exists (set_weights w wp' self), st'.
  split; [done|]. split.
  { intros num_step rate. unfold Train. by rewrite Hsetup. }
  split; [done|]. split; [done|]. split; [|done].
  intros i r wm Hr Hwm. destruct (Hnew i r wm Hr Hwm) as [Hwp Hst].
  exists (Mat_new numel (size wm) false). split; [done|].
  split; [simpl; apply lookup_ge_None; lia|]. done.
Qed.

Local Open Scope Z_scope.

(** C1, as amended.  In a run with a model, at least one step and cadences
    of at least 1, print and test fire at the steps of the run that are due
    by their cadence or final, and the decay at the steps that are due by
    its cadence, once each and at no other step.  The steps of the run are
    all of them when [Train] returns true; when a save fails, print and test
    have their turn up to the step of that save, the decay up to the step
    before it.  After [k] turns the counters are at [k] modulo their
    cadence, so 0 after a turn in which they were due, and 0 after the final
    step. *)
Theorem Train_schedule self (m : M) (num_step : Z) (rate : Dtype)
    (st : list (Mat (Dtype := Dtype) (Shape := Shape))) :
  cadences_ok self = true -> 1 <= num_step < 2 ^ 32 ->
  weights_valid (Model_GetWeight m st []) st = true ->
  exists self1 st1 e,
    Train_setup numel self m st = Some (self1, st1) /\
    Train numel kError_terminates Learn self (Some m) num_step rate st
      = Some e /\
    (exists started finished : Z,
       started = steps_started (trace_end e) /\
       match exit e with
       | Returned true => started = num_step /\ finished = num_step
       | Returned false => 1 <= started <= num_step /\ finished = started - 1
       | ProcessTerminated => False
       end /\
       schedule self num_step (trace_end e) started finished) /\
    (forall (k : nat) s,
       Z.of_nat k <= num_step ->
       Train_loop Learn self1 num_step k 0
         (mkLoopState 0 0 0 0 rate m st1 [EvGetWeight]) = Continue s ->
       counters_at self num_step (Z.of_nat k) s).
Proof.
  intros Hcad Hn Hvalid.
  destruct (Train_setup_returns self m st Hvalid)
    as (wp' & st1 & Hsetup & _).
  set (self1 := set_weights (Model_GetWeight m st []) wp' self) in *.
  assert (cadences_ok self1 = true) as Hcad1 by done.
  assert (forall k s, counters_at self1 num_step k s
                      <-> counters_at self num_step k s) as Hsame by done.
  assert (forall tr a b, schedule self1 num_step tr a b
                         <-> schedule self num_step tr a b) as Hsched by done.
  assert (Train numel kError_terminates Learn self (Some m) num_step rate st
          = Some (Train_steps Learn self1 m num_step rate st1)) as Htrain.
  { unfold Train. by rewrite Hsetup. }
  set (s0 := mkLoopState 0 0 0 0 rate m st1 [EvGetWeight]).
  assert (counters_at self1 num_step 0 s0) as Hinv0.
  { apply Hsame. unfold counters_at; simpl. rewrite !Z.mod_0_l; [done|..].
    all: apply cadences_ok_bounds in Hcad; lia. }
  exists self1, st1, (Train_steps Learn self1 m num_step rate st1).
  split; [done|]. split; [done|]. split.
  - pose proof (Train_loop_spec self1 num_step (Z.to_nat num_step) 0 s0
                  Hcad1 ltac:(lia) ltac:(lia) ltac:(lia) Hinv0) as Hloop.
    cbv zeta in Hloop. destruct Hloop as (started & finished & Hr & Htr & Hcnt).
    exists started, finished. unfold Train_steps. fold s0.
    destruct (Train_loop Learn self1 num_step (Z.to_nat num_step) 0 s0)
      as [s|s]; simpl in *.
    + destruct Hr as (Hs & Hf & _). unfold steps_started.
      rewrite Htr. split; [lia|]. split; [lia|].
      apply Hsched. unfold schedule, fires_exactly.
      repeat split; intros i; destruct (Hcnt i) as (Hp & Ht & Hd); done.
    + destruct Hr as (Hs & Hf). unfold steps_started.
      rewrite Htr. split; [lia|]. split; [lia|].
      apply Hsched. unfold schedule, fires_exactly.
      repeat split; intros i; destruct (Hcnt i) as (Hp & Ht & Hd); done.
  - intros k s Hk Hrun. apply Hsame.
    pose proof (Train_loop_spec self1 num_step k 0 s0
                  Hcad1 ltac:(lia) ltac:(lia) ltac:(lia) Hinv0) as Hloop.
    cbv zeta in Hloop. destruct Hloop as (started & finished & Hr & _).
    fold s0 in Hrun. rewrite Hrun in Hr. simpl in Hr.
    by destruct Hr as (_ & _ & Hinv).
Qed.

(** When [Train] returns true, the two lists of the solver are empty. *)
Lemma Train_success_clears self (model : option M) num_step rate
    (st : list (Mat (Dtype := Dtype) (Shape := Shape))) e :
  Train numel kError_terminates Learn self model num_step rate st = Some e ->
  exit e = Returned true ->
  weight_ (solver_end e) = [] /\ weight_prev_ (solver_end e) = [].
Proof.
  unfold Train, Train_steps. destruct model as [m|].
  - destruct (Train_setup numel self m st) as [[self1 st1]|]; [|done]. simpl.
    intros [= <-]. by destruct (Train_loop _ _ _ _ _ _).
  - intros [= <-]. simpl. by destruct kError_terminates.
Qed.


End SolverFacts.

(** * Further properties of the solver *)

Section SolverMoreFacts.

Context {Dtype : Type} `{Numeric Dtype} {Shape : Type} (numel : Shape -> nat).
Context (kError_terminates : bool).
Context {M : Type} `{Model (Dtype := Dtype) (Shape := Shape) M}.
Context (Learn : Solver (Dtype := Dtype) -> M -> Dtype ->
                 list (Mat (Dtype := Dtype) (Shape := Shape)) ->
                 M * list (Mat (Dtype := Dtype) (Shape := Shape))).
Implicit Types self : Solver (Dtype := Dtype).
Implicit Types s : LoopState (Dtype := Dtype) (Shape := Shape) (M := M).

Local Open Scope Z_scope.

Lemma cadence_uint32_bounds c : cadence_uint32 c = true -> 0 <= c < 2 ^ 32.
Proof. unfold cadence_uint32. rewrite andb_true_iff. lia. Qed.

Lemma cadences_uint32_bounds self :
  cadences_uint32 self = true ->
  0 <= print_each_ self < 2 ^ 32 /\ 0 <= test_each_ self < 2 ^ 32 /\
  0 <= save_each_ self < 2 ^ 32 /\ 0 <= lr_scale_each_ self < 2 ^ 32.
Proof.
  unfold cadences_uint32. rewrite !andb_true_iff.
  intros [[[? ?] ?] ?]. auto using cadence_uint32_bounds.
Qed.

(** The turn of a counter of any cadence. *)
Lemma counter_reaches c v step :
  0 <= c < 2 ^ 32 -> 0 <= step < 2 ^ 32 - 1 -> v = counter_value c step ->
  (c <=? wrap32 (v + 1)) = reached c step /\
  (if c <=? wrap32 (v + 1) then 0 else wrap32 (v + 1))
  = counter_value c (step + 1).
Proof.
  intros Hc Hstep ->. unfold reached, counter_value.
  destruct (Z.eqb_spec c 0) as [->|Hne]; [done|]. simpl.
  destruct (lr_fires_due c (step mod c) step) as [Hf Hn]; [lia | lia | done |].
  cbv zeta in *. done.
Qed.

Lemma counter_reaches_or_final c v num_step step :
  0 <= c < 2 ^ 32 -> 0 <= step < num_step -> num_step < 2 ^ 32 ->
  v = counter_value c step ->
  let f := (c <=? wrap32 (v + 1)) || (step =? wrap32 (num_step - 1)) in
  f = fires c num_step step /\
  (step + 1 < num_step ->
   (if f then 0 else wrap32 (v + 1)) = counter_value c (step + 1)).
Proof.
  intros Hc Hstep Hn Hv f.
  destruct (counter_reaches c v step Hc ltac:(lia) Hv) as [Hr Hnext].
  assert (f = fires c num_step step) as Hf.
  { unfold f, fires. rewrite (wrap32_small (num_step - 1)) by lia.
    by rewrite Hr. }
  split; [done|]. intros Hlt. unfold f in *.
  replace (step =? wrap32 (num_step - 1)) with false.
  - by rewrite orb_false_r.
  - symmetry. rewrite wrap32_small by lia. apply Z.eqb_neq. lia.
Qed.

Lemma decays_before_next c k :
  0 <= c -> 0 <= k ->
  decays_before c (k + 1)
  = ((if reached c k then 1 else 0) + decays_before c k)%nat.
Proof.
  intros Hc Hk. unfold decays_before, reached.
  destruct (Z.eqb_spec c 0) as [->|Hne]; simpl; [lia|].
  pose proof (Z.mod_pos_bound k c ltac:(lia)) as Hr.
  pose proof (Z.div_mod k c ltac:(lia)) as Hdiv.
  pose proof (Z.div_pos k c ltac:(lia) ltac:(lia)) as Hq.
  destruct (counter_turn c k) as (_ & Hd1 & Hd0); [lia..|].
  destruct (due c k) eqn:Hd.
  - specialize (Hd1 eq_refl).
    assert ((k + 1) / c = k / c + 1) as ->; [|lia].
    symmetry. apply (Z.div_unique_pos _ _ _ 0); [lia|].
    pose proof (Z.div_mod (k + 1) c ltac:(lia)) as Hdiv'.
    rewrite Hd1 in Hdiv'.
    assert (k mod c + 1 = c) as Hfull.
    { destruct (Z.eq_dec (k mod c + 1) c); [done|].
      assert ((k + 1) mod c = k mod c + 1) as Hs.
      { symmetry. apply (Z.mod_unique_pos _ _ (k / c)); lia. }
      lia. }
    nia.
  - specialize (Hd0 eq_refl).
    assert ((k + 1) / c = k / c) as ->; [|lia].
    symmetry. apply (Z.div_unique_pos _ _ _ (k mod c + 1)); [|lia].
    pose proof (Z.mod_pos_bound (k + 1) c ltac:(lia)). lia.
Qed.


(** One turn of the loop: its events, the counters and the rate after it. *)
Lemma Train_body_block self num_step rate0 step s :
  cadences_uint32 self = true -> 0 <= step < num_step -> num_step < 2 ^ 32 ->
  counters_before self num_step step s ->
  learning_rate s
  = scaled rate0 (lr_scale_ self) (decays_before (lr_scale_each_ self) step) ->
  match Train_body Learn self num_step step s with
  | Continue s' =>
      counters_before self num_step (step + 1) s' /\
      learning_rate s'
      = scaled rate0 (lr_scale_ self)
          (decays_before (lr_scale_each_ self) (step + 1)) /\
      exists block,
        step_block self num_step rate0 step false block /\
        trace_now s' = trace_now s ++ block
  | ReturnFalse s' =>
      exists block,
        step_block self num_step rate0 step true block /\
        trace_now s' = trace_now s ++ block
  end.
Proof.
  intros Hcad Hstep Hn (Hlt & Hlr) Hrate.
  apply cadences_uint32_bounds in Hcad as (Hpe & Hte & Hse & Hle).
  destruct Hlt as (Hp & Ht & Hs); [lia|].
  destruct (counter_reaches_or_final _ _ num_step step Hpe Hstep Hn Hp)
    as (Hpf & Hpn).
  destruct (counter_reaches_or_final _ _ num_step step Hte Hstep Hn Ht)
    as (Htf & Htn).
  destruct (counter_reaches_or_final _ _ num_step step Hse Hstep Hn Hs)
    as (Hsf & Hsn).
  destruct (counter_reaches _ _ step Hle ltac:(lia) Hlr) as (Hlf & Hln).
  cbv zeta in *.
  unfold step_block, counters_before.
  rewrite (decays_before_next _ step) by lia.
  rewrite <- Hpf, <- Htf, <- Hsf, <- Hlf, <- Hln. unfold scaled in *.
  rewrite Nat.iter_add, <- Hrate.
  unfold Train_body.
  destruct (Model_Train (model_now s) (heap_now s)) as [[loss m1] h1].
  destruct (Learn self m1 (learning_rate s) h1) as [m2 h2].
  rewrite (wrap32_small (step + 1)) by lia.
  set (pf := (print_each_ self <=? wrap32 (print s + 1))
             || (step =? wrap32 (num_step - 1))) in *.
  set (tf := (test_each_ self <=? wrap32 (test s + 1))
             || (step =? wrap32 (num_step - 1))) in *.
  set (sf := (save_each_ self <=? wrap32 (save s + 1))
             || (step =? wrap32 (num_step - 1))) in *.
  set (lf := lr_scale_each_ self <=? wrap32 (lr s + 1)) in *.
  clearbody pf tf sf lf. clear Hpf Htf Hsf Hlf.
  destruct tf;
    [destruct (Model_Test m2 h2) as [[acc m3] h3]
    | pose (acc := loss); pose (m3 := m2)];
    (destruct sf;
     [destruct (Model_Save _ _ _) as [[[|] m4] h4]|]); simpl.
  all: destruct pf, lf; simpl.
  all: repeat split; try done; try (auto; fail).
  all: eexists; (split; [exists loss, acc, m3; split; [reflexivity|done]|]).
  all: unfold Report, step_events; simpl; rewrite <- ?app_assoc; reflexivity.
Qed.


(** The loop from the step [step], with [n] turns to go: the blocks of
    events of its steps. *)
Lemma Train_loop_blocks self num_step rate0 (n : nat) step s :
  cadences_uint32 self = true ->
  0 <= step -> step + Z.of_nat n <= num_step -> num_step < 2 ^ 32 ->
  counters_before self num_step step s ->
  learning_rate s
  = scaled rate0 (lr_scale_ self) (decays_before (lr_scale_each_ self) step) ->
  let r := Train_loop Learn self num_step n step s in
  exists blocks : list (list Event),
    trace_now (state_of r) = trace_now s ++ concat blocks /\
    match r with
    | Continue s' =>
        length blocks = n /\
        learning_rate s'
        = scaled rate0 (lr_scale_ self)
            (decays_before (lr_scale_each_ self) (step + Z.of_nat n))
    | ReturnFalse _ => (1 <= length blocks <= n)%nat
    end /\
    forall (j : nat) block,
      blocks !! j = Some block ->
      step_block self num_step rate0 (step + Z.of_nat j)
        match r with
        | Continue _ => false
        | ReturnFalse _ => (Datatypes.S j =? length blocks)%nat
        end block.
Proof.
  intros Hcad. revert step s.
  induction n as [|n IH]; intros step s Hstep Hend Hn Hinv Hrate r.
  - exists []. subst r. simpl. rewrite app_nil_r, Z.add_0_r. done.
  - pose proof (Train_body_block self num_step rate0 step s Hcad
                  ltac:(lia) Hn Hinv Hrate) as Hb.
    subst r. simpl.
    destruct (Train_body Learn self num_step step s) as [s1|s1].
    + destruct Hb as (Hinv1 & Hrate1 & b & Hblock & Htr).
      rewrite wrap32_small by lia.
      specialize (IH (step + 1) s1 ltac:(lia) ltac:(lia) Hn Hinv1 Hrate1).
      cbv zeta in IH. destruct IH as (blocks & Htr' & Hr & Hall).
      exists (b :: blocks). split.
      { rewrite Htr', Htr. simpl. by rewrite app_assoc. }
      split.
      { destruct (Train_loop Learn self num_step n (step + 1) s1); simpl.
        - destruct Hr as [-> Hr]. split; [done|].
          rewrite Hr. do 2 f_equal. lia.
        - lia. }
      intros [|j] block Hj; simpl in Hj.
      * injection Hj as <-. rewrite Z.add_0_r.
        destruct (Train_loop Learn self num_step n (step + 1) s1);
          [done|].
        destruct blocks; simpl in *; [lia | done].
      * specialize (Hall j block Hj).
        replace (step + Z.of_nat (Datatypes.S j))
          with (step + 1 + Z.of_nat j) by lia.
        by destruct (Train_loop Learn self num_step n (step + 1) s1).
    + destruct Hb as (b & Hblock & Htr).
      exists [b]. simpl. rewrite app_nil_r. split; [done|].
      split; [lia|].
      intros [|j] block Hj; simpl in Hj; [|done].
      injection Hj as <-. by rewrite Z.add_0_r.
Qed.

(** The events of a run are those of the call of [GetWeight] and then, step
    by step, those of [step_events]. *)
Lemma Train_blocks self (m : M) (num_step : Z) (rate : Dtype)
    (st : list (Mat (Dtype := Dtype) (Shape := Shape))) :
  cadences_uint32 self = true -> 0 <= num_step < 2 ^ 32 ->
  weights_valid (Model_GetWeight m st []) st = true ->
  exists e blocks,
    Train numel kError_terminates Learn self (Some m) num_step rate st
      = Some e /\
    trace_end e = EvGetWeight :: concat blocks /\
    match exit e with
    | Returned true => length blocks = Z.to_nat num_step
    | Returned false => (1 <= length blocks <= Z.to_nat num_step)%nat
    | ProcessTerminated => False
    end /\
    forall (k : nat) block,
      blocks !! k = Some block ->
      step_block self num_step rate (Z.of_nat k)
        (is_aborted e && (Datatypes.S k =? length blocks)%nat) block.
Proof.
  intros Hcad Hn Hvalid.
  destruct (Train_setup_returns numel self m st Hvalid)
    as (wp' & st1 & Hsetup & _).
  set (self1 := set_weights (Model_GetWeight m st []) wp' self) in *.
  set (s0 := mkLoopState 0 0 0 0 rate m st1 [EvGetWeight]).
  pose proof (Train_loop_blocks self1 num_step rate (Z.to_nat num_step) 0 s0
                Hcad ltac:(lia) ltac:(lia) ltac:(lia)) as Hloop.
  destruct Hloop as (blocks & Htr & Hr & Hall).
  { unfold counters_before, counter_value; simpl.
    rewrite !Zmod_0_l. by repeat case_match. }
  { unfold decays_before. simpl. by case_match. }
  exists (Train_steps Learn self1 m num_step rate st1), blocks.
  split; [unfold Train; by rewrite Hsetup|].
  unfold Train_steps, is_aborted. fold s0.
  destruct (Train_loop Learn self1 num_step (Z.to_nat num_step) 0 s0)
    as [s|s]; simpl in *.
  - split; [done|]. split; [tauto|]. intros k block Hk.
    apply (Hall k block Hk).
  - split; [done|]. split; [done|]. intros k block Hk.
    apply (Hall k block Hk).
Qed.


Local Close Scope Z_scope.

Lemma omap_concat_blocks {A B : Type} (f : A -> option B) (g : nat -> B)
    (blocks : list (list A)) (off : nat) :
  (forall k b, blocks !! k = Some b -> omap f b = [g (off + k)]) ->
  omap f (concat blocks) = g <$> seq off (length blocks).
Proof.
  revert off. induction blocks as [|b blocks IH]; intros off Hall; [done|].
  simpl. rewrite omap_app, (Hall 0 b eq_refl), Nat.add_0_r. simpl. f_equal.
  apply IH. intros k b' Hk.
  replace (Datatypes.S off + k) with (off + Datatypes.S k) by lia.
  by apply Hall.
Qed.

Lemma learn_rates_step_events step (rate scale loss acc : Dtype) name
    pf tf sf lf :
  learn_rates (step_events step rate scale loss acc name pf tf sf lf)
  = [rate].
Proof. by destruct pf, tf, sf, lf. Qed.

Lemma saved_names_step_events step (rate scale loss acc : Dtype) name
    pf tf sf lf :
  saved_names (step_events step rate scale loss acc name pf tf sf lf)
  = if sf then [name] else [].
Proof. by destruct pf, tf, sf, lf. Qed.

Lemma saved_names_last_block (blocks : list (list Event))
    (b : list (Event (Dtype := Dtype))) :
  saved_names (EvGetWeight :: concat (blocks ++ [b]))
  = saved_names (concat blocks) ++ saved_names b.
Proof.
  unfold saved_names. simpl. rewrite concat_app, omap_app. simpl.
  by rewrite app_nil_r.
Qed.

Local Open Scope Z_scope.

(** X1.  The events of a run with a model, the cadences being any
    [uint32_t] values (0 too): the call of [GetWeight], then for each step
    begun its block of events, in the order [Train], [Learn], print, [Test]
    and its report, [Save], decay.  Print, test and save are in the block
    of the steps that their counter reaches and of the last step; the decay
    is in that of the steps its counter reaches, unless the save of the
    step failed.  A run that returns true has one block per step; one that
    returns false ends with the block of the step whose save failed. *)
Theorem Train_event_order self (m : M) (num_step : Z) (rate : Dtype)
    (st : list (Mat (Dtype := Dtype) (Shape := Shape))) :
  cadences_uint32 self = true -> 0 <= num_step < 2 ^ 32 ->
  weights_valid (Model_GetWeight m st []) st = true ->
  exists e blocks,
    Train numel kError_terminates Learn self (Some m) num_step rate st
      = Some e /\
    trace_end e = EvGetWeight :: concat blocks /\
    match exit e with
    | Returned true => length blocks = Z.to_nat num_step
    | Returned false => (1 <= length blocks <= Z.to_nat num_step)%nat
    | ProcessTerminated => False
    end /\
    forall (k : nat) block,
      blocks !! k = Some block ->
      step_block self num_step rate (Z.of_nat k)
        (is_aborted e && (Datatypes.S k =? length blocks)%nat) block.
Proof. apply Train_blocks. Qed.

(** X2.  [Learn] is called once in each step begun, and at the step [k]
    with the rate that [Train] was given, multiplied by [lr_scale_] once
    for each decay before: [k / lr_scale_each_] times ([k] times when that
    cadence is 0). *)
Theorem Train_learning_rates self (m : M) (num_step : Z) (rate : Dtype)
    (st : list (Mat (Dtype := Dtype) (Shape := Shape))) :
  cadences_uint32 self = true -> 0 <= num_step < 2 ^ 32 ->
  weights_valid (Model_GetWeight m st []) st = true ->
  exists e (n : nat),
    Train numel kError_terminates Learn self (Some m) num_step rate st
      = Some e /\
    match exit e with
    | Returned true => n = Z.to_nat num_step
    | Returned false => (1 <= n <= Z.to_nat num_step)%nat
    | ProcessTerminated => False
    end /\
    learn_rates (trace_end e)
    = (fun k => scaled rate (lr_scale_ self)
                  (decays_before (lr_scale_each_ self) (Z.of_nat k)))
      <$> seq 0 n.
Proof.
  intros Hcad Hn Hvalid.
  destruct (Train_blocks self m num_step rate st Hcad Hn Hvalid)
    as (e & blocks & Hrun & Htr & Hlen & Hall).
  exists e, (length blocks). split; [done|]. split; [done|].
  rewrite Htr. unfold learn_rates. simpl.
  apply (omap_concat_blocks _ _ blocks 0). intros k b Hk.
  destruct (Hall k b Hk) as (loss & acc & m' & -> & _).
  apply learn_rates_step_events.
Qed.

(** X3.  A run of at least one step that returns true has called [Save] at
    its last step: the last file saved is named after the model, with the
    number of steps. *)
Theorem Train_final_checkpoint self (m : M) (num_step : Z) (rate : Dtype)
    (st : list (Mat (Dtype := Dtype) (Shape := Shape))) :
  cadences_uint32 self = true -> 1 <= num_step < 2 ^ 32 ->
  weights_valid (Model_GetWeight m st []) st = true ->
  exists e,
    Train numel kError_terminates Learn self (Some m) num_step rate st
      = Some e /\
    (exit e = Returned true ->
     exists m' : M,
       last (saved_names (trace_end e))
       = Some (Model_Name m' ++ "_" ++ to_string num_step ++ ".model")%string).
Proof.
  intros Hcad Hn Hvalid.
  destruct (Train_blocks self m num_step rate st Hcad ltac:(lia) Hvalid)
    as (e & blocks & Hrun & Htr & Hlen & Hall).
  exists e. split; [done|]. intros Hexit. rewrite Hexit in Hlen.
  destruct blocks as [|b0 blocks _] using rev_ind; [simpl in Hlen; lia|].
  rewrite length_app in Hlen. simpl in Hlen.
  destruct (Hall (length blocks) b0) as (loss & acc & m' & Hb & _).
  { by apply list_lookup_middle. }
  exists m'. rewrite Htr, saved_names_last_block, Hb.
  rewrite saved_names_step_events.
  replace (Z.of_nat (length blocks) + 1) with num_step by lia.
  assert (fires (save_each_ self) num_step (Z.of_nat (length blocks)) = true)
    as ->.
  { unfold fires. replace (Z.of_nat (length blocks) =? num_step - 1) with true.
    - apply orb_true_r.
    - symmetry. apply Z.eqb_eq. lia. }
  apply last_snoc.
Qed.


Local Close Scope Z_scope.

(** X4.  With no step to make, [Train] still fetches the weights and
    allocates the tensors of their previous values, calls no other method of
    the model, reports nothing, empties the two lists and returns true. *)
Theorem Train_zero_steps self (m : M) (rate : Dtype)
    (st : list (Mat (Dtype := Dtype) (Shape := Shape))) :
  weights_valid (Model_GetWeight m st []) st = true ->
  exists self1 st1,
    Train_setup numel self m st = Some (self1, st1) /\
    Train numel kError_terminates Learn self (Some m) 0 rate st
    = Some {| exit := Returned true;
              solver_end := set_weights [] [] self;
              model_end := Some m;
              heap_end := st1;
              trace_end := [EvGetWeight] |}.
Proof.
  intros Hvalid.
  destruct (Train_setup_returns numel self m st Hvalid)
    as (wp' & st1 & Hsetup & _).
  eexists _, st1. split; [exact Hsetup|].
  unfold Train. by rewrite Hsetup.
Qed.

Lemma Train_prev_loop_overwrites (w : list MatRef) (n i : nat)
    (wpA wpB : list MatRef)
    (st : list (Mat (Dtype := Dtype) (Shape := Shape))) :
  length wpA = length wpB -> i + n = length wpA ->
  take i wpA = take i wpB ->
  for_loop (Train_prev_body numel w) i n (wpA, st)
  = for_loop (Train_prev_body numel w) i n (wpB, st).
Proof.
  revert i wpA wpB st.
  induction n as [|n IH]; intros i wpA wpB st Hlen Hi Htake; simpl.
  - rewrite Nat.add_0_r in Hi.
    rewrite take_ge in Htake by lia. rewrite take_ge in Htake by lia.
    by subst.
  - unfold Train_prev_body at 1 3; simpl.
    destruct (w !! i) as [wi|]; simpl; [|done].
    destruct (deref st wi) as [wm|]; simpl; [|done].
    rewrite <- Hlen.
    assert ((i <? length wpA) = true) as -> by (apply Nat.ltb_lt; lia).
    apply IH.
    + by rewrite !length_insert.
    + rewrite length_insert. lia.
    + apply list_eq. intros j.
      destruct (decide (j < Datatypes.S i)) as [Hj|Hj].
      * rewrite !lookup_take_lt by done.
        destruct (decide (j = i)) as [->|Hne].
        -- rewrite !list_lookup_insert_eq by lia. done.
        -- rewrite !list_lookup_insert_ne by done.
           assert (take i wpA !! j = take i wpB !! j) as Hjj
             by by rewrite Htake.
           rewrite !lookup_take_lt in Hjj by lia. done.
      * rewrite !lookup_take_ge by lia. done.
Qed.

(** X5.  What the two lists of the solver hold when [Train] is called with
    a model has no effect on the call: the lists are emptied, resp. resized
    and overwritten, before they are used. *)
Theorem Train_ignores_stale_weights self (w wp : list MatRef) (m : M)
    (num_step : Z) (rate : Dtype)
    (st : list (Mat (Dtype := Dtype) (Shape := Shape))) :
  Train numel kError_terminates Learn (set_weights w wp self) (Some m)
    num_step rate st
  = Train numel kError_terminates Learn self (Some m) num_step rate st.
Proof.
  unfold Train, Train_setup. simpl.
  rewrite (Train_prev_loop_overwrites _ _ 0 _
             (resize (length (Model_GetWeight m st [])) None
                (weight_prev_ self)) st);
    [done | by rewrite !length_resize | by rewrite length_resize | done].
Qed.


Lemma Train_body_saves_ok self num_step step s :
  (forall (m : M) st name, (Model_Save m st name).1.1 = true) ->
  exists s', Train_body Learn self num_step step s = Continue s'.
Proof.
  intros Hsave. unfold Train_body.
  destruct (Model_Train (model_now s) (heap_now s)) as [[loss m1] h1].
  destruct (Learn self m1 (learning_rate s) h1) as [m2 h2].
  destruct ((test_each_ self <=? wrap32 (test s + 1))%Z
            || (step =? wrap32 (num_step - 1))%Z);
    [destruct (Model_Test m2 h2) as [[acc m3] h3]|].
  all: destruct ((save_each_ self <=? wrap32 (save s + 1))%Z
                 || (step =? wrap32 (num_step - 1))%Z).
  all: try match goal with
           | |- context [Model_Save ?m ?h ?n] =>
               pose proof (Hsave m h n) as Hok;
               destruct (Model_Save m h n) as [[saved m4] h4];
               simpl in Hok; subst saved
           end.
  all: simpl; eauto.
Qed.

Lemma Train_loop_saves_ok self num_step n step s :
  (forall (m : M) st name, (Model_Save m st name).1.1 = true) ->
  exists s', Train_loop Learn self num_step n step s = Continue s'.
Proof.
  intros Hsave. revert step s.
  induction n as [|n IH]; intros step s; simpl; [by exists s|].
  destruct (Train_body_saves_ok self num_step step s Hsave) as [s1 ->].
  apply IH.
Qed.

(** X6.  With a model whose [Save] never fails, [Train] returns true,
    whatever the cadences and the number of steps, and leaves the solver as
    its constructor makes it from the same five settings: the two lists are
    empty again. *)
Theorem Train_returns_true self (m : M) (num_step : Z) (rate : Dtype)
    (st : list (Mat (Dtype := Dtype) (Shape := Shape))) :
  (forall (m : M) st name, (Model_Save m st name).1.1 = true) ->
  weights_valid (Model_GetWeight m st []) st = true ->
  exists e,
    Train numel kError_terminates Learn self (Some m) num_step rate st
      = Some e /\
    exit e = Returned true /\
    solver_end e
    = Solver_new (print_each_ self) (test_each_ self) (save_each_ self)
        (lr_scale_each_ self) (lr_scale_ self).
Proof.
  intros Hsave Hvalid.
  destruct (Train_setup_returns numel self m st Hvalid)
    as (wp' & st1 & Hsetup & _).
  unfold Train. rewrite Hsetup. simpl. unfold Train_steps.
  destruct (Train_loop_saves_ok
              (set_weights (Model_GetWeight m st []) wp' self) num_step
              (Z.to_nat num_step) 0%Z
              (mkLoopState 0 0 0 0 rate m st1 [EvGetWeight]) Hsave)
    as [s' ->].
  eexists. split; [done|]. done.
Qed.

End SolverMoreFacts.

(** * Further properties of the layers *)

Section LayersMoreFacts.

Context {Dtype : Type} `{Numeric Dtype} {Shape : Type} (numel : Shape -> nat).
Context (PHASE_TRAIN : Z).
Implicit Types st : list (Mat (Dtype := Dtype) (Shape := Shape)).
Implicit Types m am bm im om mm : Mat (Dtype := Dtype) (Shape := Shape).
Implicit Types l : LayerDropout (Dtype := Dtype).
Implicit Types q : MatRef.

Lemma Mat_ok_set_deriv m d :
  Mat_ok numel m = true -> length d = Mat_Size numel m ->
  Mat_ok numel (set_deriv d m) = true.
Proof.
  unfold Mat_ok, Mat_Size; simpl. rewrite !andb_true_iff, !Nat.eqb_eq.
  intros [? _] ?. done.
Qed.

(** [Backward] keeps the layer as built and writes no value. *)
Lemma Dropout_Backward_keeps l st i o im om mm state :
  Dropout_ok numel l st i o im om mm ->
  exists st' im' mm',
    LayerDropout_Backward numel l state st = Some st' /\
    Dropout_ok numel l st' i o im' om mm' /\
    data im' = data im /\ data mm' = data mm /\
    forall q, q <> i -> q <> mask_ l -> deref st' q = deref st q.
Proof.
  intros Hok.
  destruct (Dropout_Backward_spec numel l st i o im om mm state Hok)
    as (st' & Hrun & Hi' & Hm' & Hf).
  destruct Hok as (Hin & Hout & Hio & Him & Hom & Hi & Ho & Hm & Hiok & Hook
                   & Hmok & Hso & Hsm).
  pose proof (Mat_ok_lengths numel _ Hiok) as [Hli Hldi].
  pose proof (Mat_ok_lengths numel _ Hook) as [Hlo Hldo].
  pose proof (Mat_ok_lengths numel _ Hmok) as [Hlm Hldm].
  eexists st', _, _. split; [done|]. split; [|split; [|split]]; [|..|done].
  - unfold Dropout_ok. rewrite Hi', Hm', (Hf o) by done.
    repeat split; try done.
    + apply Mat_ok_set_deriv; [done|]. apply length_accumulate; lia.
    + apply Mat_ok_set_deriv; [done|]. apply length_accumulate; lia.
  - done.
  - done.
Qed.

Lemma Layer_ClearDeriv_single o om st :
  deref st o = Some om ->
  exists st', Layer_ClearDeriv_outs [o] st = Some st' /\
    deref st' o = Some (Mat_deriv_Zero om) /\
    forall q, q <> o -> deref st' q = deref st q.
Proof.
  intros Ho. simpl.
  destruct (modify_spec st o Mat_deriv_Zero om Ho) as (st' & -> & _ & Ho' & Hf).
  by exists st'.
Qed.

Lemma Dropout_ClearDeriv_spec l st i o im om mm :
  Dropout_ok numel l st i o im om mm ->
  exists st',
    LayerDropout_ClearDeriv l st = Some st' /\
    deref st' o = Some (Mat_deriv_Zero om) /\
    deref st' (mask_ l) = Some (Mat_deriv_Zero mm) /\
    (forall q, q <> o -> q <> mask_ l -> deref st' q = deref st q) /\
    Dropout_ok numel l st' i o im (Mat_deriv_Zero om) (Mat_deriv_Zero mm).
Proof.
  intros (Hin & Hout & Hio & Him & Hom & Hi & Ho & Hm & Hiok & Hook & Hmok
          & Hso & Hsm).
  pose proof (Mat_ok_lengths numel _ Hook) as [Hlo Hldo].
  pose proof (Mat_ok_lengths numel _ Hmok) as [Hlm Hldm].
  unfold LayerDropout_ClearDeriv, Layer_ClearDeriv. rewrite Hout.
  destruct (Layer_ClearDeriv_single o om st Ho) as (st1 & -> & Ho1 & Hf1).
  simpl.
  destruct (modify_spec st1 (mask_ l) Mat_deriv_Zero mm)
    as (st2 & -> & _ & Hm2 & Hf2).
  { rewrite Hf1; [done | congruence]. }
  exists st2. split; [done|].
  assert (deref st2 o = Some (Mat_deriv_Zero om)) as Ho2
    by (rewrite Hf2; done).
  assert (forall q, q <> o -> q <> mask_ l -> deref st2 q = deref st q) as Hf.
  { intros q Hqo Hqm. rewrite Hf2, Hf1; done. }
  split; [done|]. split; [done|]. split; [done|].
  unfold Dropout_ok. rewrite Ho2, Hm2, (Hf i) by done.
  repeat split; try done.
  - apply Mat_ok_set_deriv; [done|]. by rewrite length_replicate.
  - apply Mat_ok_set_deriv; [done|]. by rewrite length_replicate.
Qed.


Lemma Mat_deriv_Zero_twice m :
  Mat_deriv_Zero (Mat_deriv_Zero m) = Mat_deriv_Zero m.
Proof.
  unfold Mat_deriv_Zero, set_deriv; simpl. by rewrite length_replicate.
Qed.

(** X7.  The constructor of the dropout layer stops the process in a failed
    check when it is not given exactly one input, before it reads its
    parameter; given one tensor and a parameter [drop_prob], it returns the
    layer with that probability and that name, the mask and the output
    being two new tensors of the shape of the input, all zero, and keeps the
    tensors there were. *)
Theorem LayerDropout_new_spec (name : string) (inputs : list MatRef)
    (param : Param) st :
  (length inputs <> 1 ->
   LayerDropout_new numel name inputs param st
     = Terminated ("Layer '" ++ name ++ "' must have 1 input")) /\
  (forall i im p,
     inputs = [i] -> param "drop_prob"%string = Some p ->
     deref st i = Some im -> Mat_ok numel im = true ->
     exists l st' o,
       LayerDropout_new numel name inputs param st = Ok (l, st') /\
       Name (parent l) = name /\ drop_prob_ l = p /\
       deref st (mask_ l) = None /\ deref st o = None /\
       Dropout_ok numel l st' i o im (Mat_new numel (size im) true)
                  (Mat_new numel (size im) true) /\
       forall q mq, deref st q = Some mq -> deref st' q = Some mq).
Proof.
  split.
  - intros Hlen. unfold LayerDropout_new.
    apply Nat.eqb_neq in Hlen. by rewrite Hlen.
  - intros i im p -> Hp Hi Hok.
    destruct (LayerDropout_new_ok numel name param st i im p Hp Hi Hok)
      as (l & st' & o & Hnew & Hprob & Hl).
    exists l, st', o. split; [done|].
    unfold LayerDropout_new, Param_Get in Hnew; simpl in Hnew.
    rewrite Hp, Hi in Hnew; simpl in Hnew. injection Hnew as <- <-.
    simpl in *. split; [done|]. split; [done|].
    split; [by apply lookup_ge_None|].
    assert (o = Some (Datatypes.S (length st))) as ->.
    { destruct Hl as (_ & Hout & _). simpl in Hout.
      injection Hout as <-. f_equal. rewrite length_app. simpl. lia. }
    split; [apply lookup_ge_None; lia|]. split; [done|].
    intros [a|] mq Hq; simpl in *; [|done].
    pose proof (lookup_lt_Some _ _ _ Hq).
    rewrite !lookup_app_l; [done | lia | rewrite length_app; lia].
Qed.

(** X8.  Whatever calls of [Forward], [Backward] and [ClearDeriv] are made
    on a dropout layer, in whatever order, phase and with whatever draws,
    each one returns (no access is out of bounds), the layer stays as its
    constructor built it, and the values of the input are never written. *)
Theorem Dropout_run_defined l (ps : list Pass) st i o im om mm :
  Dropout_ok numel l st i o im om mm ->
  exists st' im' om' mm',
    Dropout_run numel PHASE_TRAIN l ps st = Some st' /\
    Dropout_ok numel l st' i o im' om' mm' /\
    data im' = data im.
Proof.
  revert st im om mm.
  induction ps as [|p ps IH]; intros st im om mm Hok; simpl.
  - by exists st, im, om, mm.
  - destruct p as [state draws|state|]; simpl.
    + destruct (Dropout_Forward_total numel PHASE_TRAIN l st i o im om mm
                  state draws Hok) as (st1 & om1 & mm1 & -> & Hok1 & _).
      simpl. by apply IH in Hok1.
    + destruct (Dropout_Backward_keeps l st i o im om mm state Hok)
        as (st1 & im1 & mm1 & -> & Hok1 & Hd & _).
      simpl. apply IH in Hok1 as (st' & im' & om' & mm' & ? & ? & ?).
      exists st', im', om', mm'. split; [done|]. split; [done|]. congruence.
    + destruct (Dropout_ClearDeriv_spec l st i o im om mm Hok)
        as (st1 & -> & _ & _ & _ & Hok1).
      simpl. by apply IH in Hok1.
Qed.

(** X9.  [ClearDeriv] of a dropout layer makes every element of the gradient
    of the output and of the mask 0; it writes no value and no other tensor,
    so the gradient of the input, which the layer does not own, is as it
    was; and a second call changes nothing. *)
Theorem LayerDropout_ClearDeriv_spec l st i o im om mm :
  Dropout_ok numel l st i o im om mm ->
  exists st',
    LayerDropout_ClearDeriv l st = Some st' /\
    deref st' o
    = Some (set_deriv (replicate (Mat_Size numel im) D0) om) /\
    deref st' (mask_ l)
    = Some (set_deriv (replicate (Mat_Size numel im) D0) mm) /\
    (forall q, q <> o -> q <> mask_ l -> deref st' q = deref st q) /\
    LayerDropout_ClearDeriv l st' = Some st'.
Proof.
  intros Hok.
  destruct (Dropout_ClearDeriv_spec l st i o im om mm Hok)
    as (st' & Hrun & Ho' & Hm' & Hf & Hok').
  destruct (Dropout_ClearDeriv_spec l st' i o im _ _ Hok')
    as (st'' & Hrun' & Ho'' & Hm'' & Hf' & _).
  rewrite !Mat_deriv_Zero_twice in *.
  destruct Hok as (_ & _ & _ & _ & _ & _ & _ & _ & _ & Hook & Hmok & Hso
                   & Hsm).
  pose proof (Mat_ok_lengths numel _ Hook) as [_ Hldo].
  pose proof (Mat_ok_lengths numel _ Hmok) as [_ Hldm].
  exists st'. split; [done|]. unfold Mat_deriv_Zero in Ho', Hm'.
  rewrite Hldo, Hso in Ho'. rewrite Hldm, Hsm in Hm'.
  split; [done|]. split; [done|]. split; [done|].
  rewrite Hrun'. f_equal. apply store_ext. intros q.
  destruct (decide (q = o)) as [->|Hqo].
  { rewrite Ho''. unfold Mat_deriv_Zero. by rewrite Hldo, Hso, Ho'. }
  destruct (decide (q = mask_ l)) as [->|Hqm].
  { rewrite Hm''. unfold Mat_deriv_Zero. by rewrite Hldm, Hsm, Hm'. }
  by apply Hf'.
Qed.

(** X10.  Two calls of [Backward] with no [ClearDeriv] between them add
    their products twice: the gradients accumulate over the calls. *)
Theorem Dropout_Backward_twice l st i o im om mm state1 state2 :
  Dropout_ok numel l st i o im om mm ->
  exists st1 st2,
    LayerDropout_Backward numel l state1 st = Some st1 /\
    LayerDropout_Backward numel l state2 st1 = Some st2 /\
    deref st2 i
    = Some (set_deriv
              (accumulate (accumulate (deriv im) (data mm) (deriv om))
                          (data mm) (deriv om)) im) /\
    deref st2 (mask_ l)
    = Some (set_deriv
              (accumulate (accumulate (deriv mm) (data im) (deriv om))
                          (data im) (deriv om)) mm) /\
    forall q, q <> i -> q <> mask_ l -> deref st2 q = deref st q.
Proof.
  intros Hok.
  destruct (Dropout_Backward_spec numel l st i o im om mm state1 Hok)
    as (st1 & Hrun1 & Hi1 & Hm1 & Hf1).
  destruct (Dropout_Backward_keeps l st i o im om mm state1 Hok)
    as (st1' & im1 & mm1 & Hrun1' & Hok1 & _).
  assert (st1' = st1) as -> by congruence.
  pose proof Hok1 as (_ & _ & _ & _ & _ & Hi1' & _ & Hm1' & _).
  assert (im1 = set_deriv (accumulate (deriv im) (data mm) (deriv om)) im)
    as -> by congruence.
  assert (mm1 = set_deriv (accumulate (deriv mm) (data im) (deriv om)) mm)
    as -> by congruence.
  destruct (Dropout_Backward_spec numel l st1 i o _ om _ state2 Hok1)
    as (st2 & Hrun2 & Hi2 & Hm2 & Hf2).
  exists st1, st2. split; [done|]. split; [done|].
  split; [done|]. split; [done|].
  intros q Hqi Hqm. rewrite Hf2, Hf1; done.
Qed.

(** X11.  In the training phase, for a probability that is neither below
    [epsilon] nor above [1 - epsilon] (an unordered one too) and for any
    draws, [Forward] makes the element [k] of the mask 0 when the [k]-th
    draw is below the probability and [1 / (1 - p)] when it is not, and
    the output the product of the mask and the input. *)
Theorem Dropout_Forward_random_branch l st i o im om mm state draws :
  Dropout_ok numel l st i o im om mm -> phase state = PHASE_TRAIN ->
  Dlt (drop_prob_ l) Deps = false ->
  Dgt (drop_prob_ l) (Dsub D1 Deps) = false ->
  let mask := drawn_mask (drop_prob_ l) draws (Mat_Size numel im) in
  exists st',
    LayerDropout_Forward numel PHASE_TRAIN l state draws st = Some st' /\
    deref st' (mask_ l) = Some (set_data mask mm) /\
    deref st' o = Some (set_data (zip_with Dmul mask (data im)) om) /\
    forall q, q <> o -> q <> mask_ l -> deref st' q = deref st q.
Proof. apply Dropout_Forward_random. Qed.


Lemma EltwiseMult_Forward_keeps (layer : Layer) st a b o am bm om state :
  EltwiseMult_ok numel layer st a b o am bm om ->
  exists st',
    LayerEltwiseMult_Forward numel layer state st = Some st' /\
    deref st' o = Some (set_data (zip_with Dmul (data am) (data bm)) om) /\
    (forall q, q <> o -> deref st' q = deref st q) /\
    EltwiseMult_ok numel layer st' a b o am bm
      (set_data (zip_with Dmul (data am) (data bm)) om).
Proof.
  intros (Hin & Hout & Hoa & Hob & Ha & Hb & Ho & Hao & Hbo & Hoo & Hsa & Hsb).
  destruct (EltwiseMult_Forward_spec numel layer st state a b o am bm om)
    as (st' & Hrun & Ho' & Hf); try done.
  exists st'. split; [done|]. split; [done|]. split; [done|].
  pose proof (Mat_ok_lengths numel _ Hao) as [Hla _].
  pose proof (Mat_ok_lengths numel _ Hbo) as [Hlb _].
  unfold EltwiseMult_ok. rewrite Ho', !Hf by congruence.
  repeat split; try done.
  apply Mat_ok_set_data; [done|]. rewrite length_zip_with.
  unfold Mat_Size in *. simpl. lia.
Qed.

Lemma EltwiseMult_Backward_keeps (layer : Layer) st a b o am bm om state :
  EltwiseMult_ok numel layer st a b o am bm om ->
  exists st' am' bm',
    LayerEltwiseMult_Backward numel layer state st = Some st' /\
    EltwiseMult_ok numel layer st' a b o am' bm' om /\
    data am' = data am /\ data bm' = data bm.
Proof.
  intros (Hin & Hout & Hoa & Hob & Ha & Hb & Ho & Hao & Hbo & Hoo & Hsa & Hsb).
  pose proof (Mat_ok_lengths numel _ Hao) as [Hla Hlda].
  pose proof (Mat_ok_lengths numel _ Hbo) as [Hlb Hldb].
  pose proof (Mat_ok_lengths numel _ Hoo) as [Hlo Hldo].
  destruct (decide (a = b)) as [->|Hab].
  - assert (bm = am) as -> by congruence.
    destruct (EltwiseMult_Backward_same numel layer st state b o am om)
      as (st' & Hrun & Ha' & Hf); try done.
    set (am' := set_deriv
                  (accumulate (accumulate (deriv am) (data am) (deriv om))
                              (data am) (deriv om)) am) in *.
    exists st', am', am'. split; [done|]. split; [|done].
    unfold EltwiseMult_ok. rewrite Ha', (Hf o) by done.
    repeat split; try done.
    all: apply Mat_ok_set_deriv; [done|].
    all: apply length_accumulate; try lia.
    all: apply length_accumulate; lia.
  - destruct (EltwiseMult_Backward_distinct numel layer st state a b o
                am bm om) as (st' & Hrun & Ha' & Hb' & Hf); try done.
    exists st',
      (set_deriv (accumulate (deriv am) (data bm) (deriv om)) am),
      (set_deriv (accumulate (deriv bm) (data am) (deriv om)) bm).
    split; [done|]. split; [|done].
    unfold EltwiseMult_ok. rewrite Ha', Hb', (Hf o) by done.
    repeat split; try done.
    all: apply Mat_ok_set_deriv; [done|].
    all: apply length_accumulate; lia.
Qed.

(** X12.  Whatever calls of [Forward] and [Backward] are made on an
    element-wise product, in whatever order and phase, each one returns (no
    access is out of bounds), the layer stays as its constructor built it,
    and the values of the two inputs are never written; the two inputs may
    be one tensor. *)
Theorem EltwiseMult_run_defined (layer : Layer) (ps : list (bool * State))
    st a b o am bm om :
  EltwiseMult_ok numel layer st a b o am bm om ->
  exists st' am' bm' om',
    EltwiseMult_run numel layer ps st = Some st' /\
    EltwiseMult_ok numel layer st' a b o am' bm' om' /\
    data am' = data am /\ data bm' = data bm.
Proof.
  revert st am bm om.
  induction ps as [|[[|] state] ps IH]; intros st am bm om Hok; simpl.
  - by exists st, am, bm, om.
  - destruct (EltwiseMult_Forward_keeps layer st a b o am bm om state Hok)
      as (st1 & -> & _ & _ & Hok1).
    simpl. by apply IH in Hok1.
  - destruct (EltwiseMult_Backward_keeps layer st a b o am bm om state Hok)
      as (st1 & am1 & bm1 & -> & Hok1 & Hda & Hdb).
    simpl. apply IH in Hok1 as (st' & am' & bm' & om' & ? & ? & ? & ?).
    exists st', am', bm', om'. split; [done|]. split; [done|].
    split; congruence.
Qed.

(** X13.  [Forward] of the element-wise product depends on the values of
    the inputs only: a second call, in any phase, changes nothing. *)
Theorem EltwiseMult_Forward_idempotent (layer : Layer) st a b o am bm om
    state1 state2 :
  EltwiseMult_ok numel layer st a b o am bm om ->
  exists st',
    LayerEltwiseMult_Forward numel layer state1 st = Some st' /\
    LayerEltwiseMult_Forward numel layer state2 st' = Some st'.
Proof.
  intros Hok.
  destruct (EltwiseMult_Forward_keeps layer st a b o am bm om state1 Hok)
    as (st1 & Hrun1 & Ho1 & Hf1 & Hok1).
  destruct (EltwiseMult_Forward_keeps layer st1 a b o am bm _ state2 Hok1)
    as (st2 & Hrun2 & Ho2 & Hf2 & _).
  exists st1. split; [done|]. rewrite Hrun2. f_equal.
  apply store_ext. intros q.
  destruct (decide (q = o)) as [->|Hq]; [by rewrite Ho2, Ho1 | by apply Hf2].
Qed.

End LayersMoreFacts.

(** * The theorems at concrete inputs *)

Local Open Scope nat_scope.

(** C5 at the product of [[2; 3]] and [[5; 7]]: the output is [[10; 21]];
    with the gradient [[1; 1]] of the output, [[5; 7]] is added to the
    gradient of the first input and [[2; 3]] to that of the second. *)
Lemma EltwiseMult_product_rule_witness :
  exists st1 st2,
    LayerEltwiseMult_Forward dims_numel mult_layer (mkState 0) mult_store
      = Some st1 /\
    data <$> deref st1 (Some 2) = Some [10; 21]%Q /\
    LayerEltwiseMult_Backward dims_numel mult_layer (mkState 0) mult_store
      = Some st2 /\
    deriv <$> deref st2 (Some 0) = Some [5; 7]%Q /\
    deriv <$> deref st2 (Some 1) = Some [2; 3]%Q.
Proof.
  destruct (EltwiseMult_product_rule dims_numel mult_layer mult_store
              (Some 0) (Some 1) (Some 2)
              (vec [2; 3]%Q [0; 0]%Q) (vec [5; 7]%Q [0; 0]%Q)
              (vec [0; 0]%Q [1; 1]%Q)
              eq_refl eq_refl ltac:(discriminate) ltac:(discriminate)
              eq_refl eq_refl eq_refl eq_refl eq_refl eq_refl eq_refl eq_refl
              (mkState 0))
    as ((st1 & Hf & Ho & _) & (st2 & Hb & Hab & _) & _).
  destruct Hab as [Ha Hb']; [discriminate|].
  exists st1, st2. rewrite Ho, Ha, Hb'. repeat split; done.
Defined.

(** C9 at three inputs: one input only; two inputs of sizes 2 and 3; two
    inputs of size 2, for which the output is a new tensor of size 2. *)
Lemma LayerEltwiseMult_new_spec_witness :
  LayerEltwiseMult_new dims_numel "mult" [Some 0] mult_store
    = Terminated "Layer 'mult' must have 2 inputs" /\
  LayerEltwiseMult_new dims_numel "mult" [Some 0; Some 1]
      [vec [2; 3]%Q [0; 0]%Q; vec [1; 2; 3]%Q [0; 0; 0]%Q]
    = Terminated "Layer 'mult' inputs must have the same size" /\
  exists st',
    LayerEltwiseMult_new dims_numel "mult" [Some 0; Some 1]
        [vec [2; 3]%Q [0; 0]%Q; vec [5; 7]%Q [0; 0]%Q]
      = Ok ({| Name := "mult"; in_ := [Some 0; Some 1];
               out_ := [Some 2] |}, st') /\
    deref st' (Some 2) = Some (vec [0; 0]%Q [0; 0]%Q).
Proof.
  split; [|split].
  - apply (LayerEltwiseMult_new_spec dims_numel "mult" [Some 0] mult_store).
    simpl. lia.
  - apply (proj1 (proj2 (LayerEltwiseMult_new_spec dims_numel "mult"
                           [Some 0; Some 1]
                           [vec [2; 3]%Q [0; 0]%Q;
                            vec [1; 2; 3]%Q [0; 0; 0]%Q]))
             (Some 0) (Some 1)
             (vec [2; 3]%Q [0; 0]%Q) (vec [1; 2; 3]%Q [0; 0; 0]%Q));
      [reflexivity | reflexivity | reflexivity | vm_compute; lia].
  - destruct (proj2 (proj2 (LayerEltwiseMult_new_spec dims_numel "mult"
                              [Some 0; Some 1]
                              [vec [2; 3]%Q [0; 0]%Q;
                               vec [5; 7]%Q [0; 0]%Q]))
                (Some 0) (Some 1)
                (vec [2; 3]%Q [0; 0]%Q) (vec [5; 7]%Q [0; 0]%Q)
                eq_refl eq_refl eq_refl eq_refl)
      as (o & st' & Hnew & Hfresh & Ho & _).
    vm_compute in Hnew. injection Hnew as <- <-.
    eexists. split; reflexivity.
Defined.

(** C3 at the input [[1; 2; 3; 4]] with [p] one third and draws that keep
    the elements 0 and 2: the kept value is 3/2, the mask
    [[3/2; 0; 3/2; 0]] and the output [[3/2; 0; 9/2; 0]]. *)
Lemma Dropout_Forward_training_draws_witness :
  exists st',
    LayerDropout_Forward dims_numel 1 (drop_layer (1 # 3)) (mkState 1)
      drop_draws drop_store = Some st' /\
    data <$> deref st' (Some 1) = Some [3 # 2; 0; 3 # 2; 0]%Q /\
    data <$> deref st' (Some 2) = Some [3 # 2; 0; 9 # 2; 0]%Q.
Proof.
  destruct (Dropout_Forward_training_draws dims_numel 1
              (drop_layer (1 # 3)) drop_store (Some 0) (Some 2)
              (vec [1; 2; 3; 4]%Q [0; 0; 0; 0]%Q)
              (vec [0; 0; 0; 0]%Q [1; 1; 1; 1]%Q)
              (vec [0; 0; 0; 0]%Q [0; 0; 0; 0]%Q)
              (mkState 1) drop_draws)
    as (st' & Hrun & Hm & Ho & _);
    [by repeat split | reflexivity | reflexivity | reflexivity | reflexivity |].
  cbn [mask_ drop_layer] in Hm.
  exists st'. rewrite Hm, Ho. repeat split; done.
Defined.

(** C4 after the forward pass with [p] one half and the same draws, the
    gradient of the output being [[1; 1; 1; 1]]: [[2; 0; 2; 0]] is added to
    the gradient of the input and [[1; 2; 3; 4]] to that of the mask. *)
Lemma Dropout_Backward_accumulates_witness :
  exists st1 st2,
    LayerDropout_Forward dims_numel 1 (drop_layer (1 # 2)) (mkState 1)
      drop_draws drop_store = Some st1 /\
    LayerDropout_Backward dims_numel (drop_layer (1 # 2)) (mkState 1) st1
      = Some st2 /\
    deriv <$> deref st2 (Some 0) = Some [2; 0; 2; 0]%Q /\
    deriv <$> deref st2 (Some 1) = Some [1; 2; 3; 4]%Q.
Proof.
  destruct (proj2 (Dropout_Backward_accumulates dims_numel 1
                     (drop_layer (1 # 2)) drop_store (Some 0) (Some 2)
                     (vec [1; 2; 3; 4]%Q [0; 0; 0; 0]%Q)
                     (vec [0; 0; 0; 0]%Q [1; 1; 1; 1]%Q)
                     (vec [0; 0; 0; 0]%Q [0; 0; 0; 0]%Q)
                     (mkState 1) ltac:(by repeat split))
              (mkState 1) drop_draws)
    as (st1 & om1 & mm1 & st2 & Hf & _ & _ & Hm1 & _ & _ & Hb & Hi2 & Hm2 & _).
  vm_compute in Hf. injection Hf as <-.
  vm_compute in Hm1. injection Hm1 as <-.
  eexists. exists st2. split; [vm_compute; reflexivity|]. split; [exact Hb|].
  cbn [mask_ drop_layer] in Hm2.
  rewrite Hi2, Hm2. split; reflexivity.
Defined.

(** C6 at the input [[1; 2; 3; 4]]: with [p = 0] the output is the input and
    the mask all ones; with [p = 1] both are all zeros. *)
Lemma Dropout_Forward_training_extremes_witness :
  (exists st',
     LayerDropout_Forward dims_numel 1 (drop_layer 0) (mkState 1)
       drop_draws drop_store = Some st' /\
     data <$> deref st' (Some 2) = Some [1; 2; 3; 4]%Q /\
     data <$> deref st' (Some 1) = Some [1; 1; 1; 1]%Q) /\
  (exists st',
     LayerDropout_Forward dims_numel 1 (drop_layer 1) (mkState 1)
       drop_draws drop_store = Some st' /\
     data <$> deref st' (Some 2) = Some [0; 0; 0; 0]%Q /\
     data <$> deref st' (Some 1) = Some [0; 0; 0; 0]%Q).
Proof.
  split.
  - destruct (proj1 (Dropout_Forward_training_extremes dims_numel 1
                       (drop_layer 0) drop_store (Some 0) (Some 2)
                       (vec [1; 2; 3; 4]%Q [0; 0; 0; 0]%Q)
                       (vec [0; 0; 0; 0]%Q [1; 1; 1; 1]%Q)
                       (vec [0; 0; 0; 0]%Q [0; 0; 0; 0]%Q)
                       (mkState 1) drop_draws
                       ltac:(by repeat split) eq_refl) eq_refl)
      as (st' & Hrun & Ho & Hm & _).
    cbn [mask_ drop_layer] in Hm.
    cbn [mask_ drop_layer] in Hm.
  exists st'. rewrite Ho, Hm. repeat split; done.
  - destruct (proj2 (Dropout_Forward_training_extremes dims_numel 1
                       (drop_layer 1) drop_store (Some 0) (Some 2)
                       (vec [1; 2; 3; 4]%Q [0; 0; 0; 0]%Q)
                       (vec [0; 0; 0; 0]%Q [1; 1; 1; 1]%Q)
                       (vec [0; 0; 0; 0]%Q [0; 0; 0; 0]%Q)
                       (mkState 1) drop_draws
                       ltac:(by repeat split) eq_refl) eq_refl)
      as (st' & Hrun & Ho & Hm & _).
    cbn [mask_ drop_layer] in Hm.
    cbn [mask_ drop_layer] in Hm.
  exists st'. rewrite Ho, Hm. repeat split; done.
Defined.

(** C7 at the input [[1; 2; 3; 4]], in a phase that is not the training
    phase: the output is the input, the mask is as it was. *)
Lemma Dropout_Forward_inference_witness :
  exists st',
    LayerDropout_Forward dims_numel 1 (drop_layer (1 # 2)) (mkState 0)
      drop_draws drop_store = Some st' /\
    data <$> deref st' (Some 2) = Some [1; 2; 3; 4]%Q /\
    deref st' (Some 1) = deref drop_store (Some 1).
Proof.
  destruct (Dropout_Forward_inference dims_numel 1
              (drop_layer (1 # 2)) drop_store (Some 0) (Some 2)
              (vec [1; 2; 3; 4]%Q [0; 0; 0; 0]%Q)
              (vec [0; 0; 0; 0]%Q [1; 1; 1; 1]%Q)
              (vec [0; 0; 0; 0]%Q [0; 0; 0; 0]%Q)
              (mkState 0) drop_draws
              ltac:(by repeat split) ltac:(discriminate))
    as (st' & Hrun & Ho & Hm & _).
  cbn [mask_ drop_layer] in Hm.
  exists st'. rewrite Ho, Hm. repeat split; done.
Defined.

(** C8 with the model of the examples, the solver holding stale lists: its
    weight is the tensor 0, and the tensor of the previous values is a new
    one, of the same shape, zeroed. *)
Lemma Train_setup_spec_witness :
  exists self' st',
    Train_setup dims_numel
      (set_weights [Some 5; Some 6] [None; None; None] (toy_solver 1 1 1 1))
      [true] toy_store = Some (self', st') /\
    weight_ self' = [Some 0] /\
    weight_prev_ self' = [Some 1] /\
    deref st' (Some 1) = Some {| size := [2]; data := [0; 0]%Q; deriv := [] |}.
Proof.
  destruct (Train_setup_spec dims_numel false toy_Learn
              (set_weights [Some 5; Some 6] [None; None; None]
                 (toy_solver 1 1 1 1))
              [true] toy_store)
    as (self' & st' & Hsetup & _); [reflexivity|].
  vm_compute in Hsetup. injection Hsetup as <- <-.
  eexists _, _. repeat split; reflexivity.
Defined.

(** C1 as claimed fails: every cadence is 1 and there are two steps, so
    the decay is due at the step 0 and print is due at the step 1; the
    save of the step 0 fails, and neither fires. *)
Lemma Train_schedule_save_failure :
  exists e,
    Train dims_numel false toy_Learn (toy_solver 1 1 1 1) (Some [false]) 2
      (1 # 10)%Q toy_store = Some e /\
    exit e = Returned false /\
    count (is_decay_at 0) (trace_end e) = 0 /\
    due 1 0 = true /\
    count (is_print_at 1) (trace_end e) = 0 /\
    due_or_final 1 2 1 = true /\
    ~ schedule (toy_solver 1 1 1 1) 2 (trace_end e) 2 2.
Proof.
  eexists. split; [vm_compute; reflexivity|].
  repeat split; try reflexivity.
  intros (_ & _ & Hd). specialize (Hd 0%Z). vm_compute in Hd. discriminate.
Qed.

(** C1 as amended, at ten steps with print every 3, test every 5, save
    every 100 and decay every 4 steps: [Train] returns true, and print, test
    and decay fire as scheduled over the ten steps. *)
Lemma Train_schedule_witness :
  exists e,
    Train dims_numel false toy_Learn (toy_solver 3 5 100 4) (Some []) 10
      (1 # 10)%Q toy_store = Some e /\
    exit e = Returned true /\
    schedule (toy_solver 3 5 100 4) 10 (trace_end e) 10 10.
Proof.
  destruct (Train_schedule dims_numel false toy_Learn (toy_solver 3 5 100 4)
              [] 10 (1 # 10)%Q toy_store)
    as (self1 & st1 & e & _ & Hrun & (started & finished & _ & Hexit & Hs) & _);
    [reflexivity | lia | reflexivity |].
  exists e. split; [exact Hrun|].
  vm_compute in Hrun. injection Hrun as <-.
  simpl in Hexit. destruct Hexit as [-> ->]. split; [reflexivity | exact Hs].
Defined.

(** The run of the spec: over ten steps with print every 3 and save every
    100 steps, print reports the steps 3, 6, 9 and 10, and the one save is
    that of the step 10; the decay, every 4 steps, halves the rate at the
    steps 4 and 8 and not at the last. *)
Example Train_ten_steps :
  exists e,
    Train dims_numel false toy_Learn (toy_solver 3 5 100 4) (Some []) 10
      (1 # 10)%Q toy_store = Some e /\
    omap (fun ev => match ev with
                    | EvReport kInfo (MsgStep n _ _) => Some n
                    | _ => None
                    end) (trace_end e) = [3; 6; 9; 10]%Z /\
    omap (fun ev => match ev with
                    | EvSave name => Some name
                    | _ => None
                    end) (trace_end e) = ["toy_10.model"%string] /\
    omap (fun ev => match ev with
                    | EvReport kInfo (MsgLearningRate n r r' _) =>
                        Some (n, r, r')
                    | _ => None
                    end) (trace_end e)
      = [(4%Z, (1 # 10)%Q, (1 # 20)%Q); (8%Z, (1 # 20)%Q, (1 # 40)%Q)].
Proof. eexists. split; [vm_compute; reflexivity|]. repeat split. Qed.

(** C2 fails on the code: one step, the save of which fails.  [Train]
    returns false and the two lists still hold the weight and the tensor of
    its previous values. *)
Theorem Train_failed_save_keeps_weights :
  exists e,
    Train dims_numel false toy_Learn (toy_solver 1 1 1 1) (Some [false]) 1
      (1 # 10)%Q toy_store = Some e /\
    exit e = Returned false /\
    weight_ (solver_end e) = [Some 0] /\
    weight_prev_ (solver_end e) = [Some 1].
Proof. eexists. split; [vm_compute; reflexivity|]. repeat split. Qed.



(** * The further properties at concrete inputs *)

(** X1 at three steps, print and decay of cadence 0, test every 2 and save
    every 100 steps: three blocks, none aborted; print and decay are in each
    of them. *)
Lemma Train_event_order_witness :
  exists e blocks,
    Train dims_numel false toy_Learn (Solver_new 0 2 100 0 (1 # 2)%Q)
      (Some []) 3 (1 # 10)%Q toy_store = Some e /\
    trace_end e = EvGetWeight :: concat blocks /\
    length blocks = 3 /\
    forall (k : nat) block,
      blocks !! k = Some block ->
      step_block (M := list bool) (Solver_new 0 2 100 0 (1 # 2)%Q) 3
        (1 # 10)%Q (Z.of_nat k) false block.
Proof.
  destruct (Train_event_order dims_numel false toy_Learn
              (Solver_new 0 2 100 0 (1 # 2)%Q) [] 3 (1 # 10)%Q toy_store)
    as (e & blocks & Hrun & Htr & Hlen & Hall);
    [reflexivity | lia | reflexivity |].
  exists e, blocks. split; [exact Hrun|]. split; [exact Htr|].
  unfold is_aborted in Hall.
  vm_compute in Hrun. injection Hrun as <-.
  split; [exact Hlen | exact Hall].
Defined.

(** X2 at ten steps with a decay every 4 steps that halves the rate. *)
Lemma Train_learning_rates_witness :
  exists e,
    Train dims_numel false toy_Learn (toy_solver 3 5 100 4) (Some []) 10
      (1 # 10)%Q toy_store = Some e /\
    learn_rates (trace_end e)
    = [1 # 10; 1 # 10; 1 # 10; 1 # 10; 1 # 20; 1 # 20; 1 # 20; 1 # 20;
       1 # 40; 1 # 40]%Q.
Proof.
  destruct (Train_learning_rates dims_numel false toy_Learn
              (toy_solver 3 5 100 4) [] 10 (1 # 10)%Q toy_store)
    as (e & n & Hrun & Hn & Hrates);
    [reflexivity | lia | reflexivity |].
  exists e. split; [exact Hrun|]. rewrite Hrates.
  vm_compute in Hrun. injection Hrun as <-.
  simpl in Hn. subst n. reflexivity.
Defined.

(** X3 at ten steps with a save every 100 steps. *)
Lemma Train_final_checkpoint_witness :
  exists e,
    Train dims_numel false toy_Learn (toy_solver 3 5 100 4) (Some []) 10
      (1 # 10)%Q toy_store = Some e /\
    last (saved_names (trace_end e)) = Some "toy_10.model"%string.
Proof.
  destruct (Train_final_checkpoint dims_numel false toy_Learn
              (toy_solver 3 5 100 4) [] 10 (1 # 10)%Q toy_store)
    as (e & Hrun & Hlast);
    [reflexivity | lia | reflexivity |].
  exists e. split; [exact Hrun|].
  destruct Hlast as [m' ->]; [|reflexivity].
  vm_compute in Hrun. injection Hrun as <-. reflexivity.
Defined.

(** X4 with the model of the examples, whose [Save] would fail. *)
Lemma Train_zero_steps_witness :
  exists e,
    Train dims_numel false toy_Learn (toy_solver 1 1 1 1) (Some [false]) 0
      (1 # 10)%Q toy_store = Some e /\
    exit e = Returned true /\
    trace_end e = [EvGetWeight] /\
    heap_end e
    = toy_store ++ [{| size := [2]; data := [0; 0]%Q; deriv := [] |}].
Proof.
  destruct (Train_zero_steps dims_numel false toy_Learn (toy_solver 1 1 1 1)
              [false] (1 # 10)%Q toy_store)
    as (self1 & st1 & Hsetup & Hrun); [reflexivity|].
  vm_compute in Hsetup. injection Hsetup as <- <-.
  eexists. split; [exact Hrun|]. repeat split.
Defined.

(** X6 at five steps with stale lists in the solver and every cadence 1. *)
Lemma Train_returns_true_witness :
  exists e,
    Train dims_numel false steady_Learn
      (set_weights [Some 5] [None; None] (Solver_new 1 1 1 1 (1 # 2)%Q))
      (Some tt) 5 (1 # 10)%Q toy_store = Some e /\
    exit e = Returned true /\
    solver_end e = Solver_new 1 1 1 1 (1 # 2)%Q.
Proof.
  apply (Train_returns_true dims_numel false steady_Learn
           (set_weights [Some 5] [None; None] (Solver_new 1 1 1 1 (1 # 2)%Q))
           tt 5 (1 # 10)%Q toy_store).
  - intros m st name. reflexivity.
  - reflexivity.
Defined.

(** X7 with two inputs, and with the one input [[1; 2; 3; 4]] and the
    probability one half. *)
Lemma LayerDropout_new_spec_witness :
  LayerDropout_new dims_numel "drop" [Some 0; Some 0]
      (fun _ => Some (1 # 2)%Q) drop_store
    = Terminated "Layer 'drop' must have 1 input" /\
  exists l st',
    LayerDropout_new dims_numel "drop" [Some 0]
        (fun _ => Some (1 # 2)%Q) [vec [1; 2; 3; 4]%Q [0; 0; 0; 0]%Q]
      = Ok (l, st') /\
    l = drop_layer (1 # 2) /\
    deref st' (Some 1) = Some (vec [0; 0; 0; 0]%Q [0; 0; 0; 0]%Q) /\
    deref st' (Some 2) = Some (vec [0; 0; 0; 0]%Q [0; 0; 0; 0]%Q).
Proof.
  split.
  - apply (LayerDropout_new_spec dims_numel "drop" [Some 0; Some 0]
             (fun _ => Some (1 # 2)%Q) drop_store).
    simpl. lia.
  - destruct (proj2 (LayerDropout_new_spec dims_numel "drop" [Some 0]
                       (fun _ => Some (1 # 2)%Q)
                       [vec [1; 2; 3; 4]%Q [0; 0; 0; 0]%Q])
                (Some 0) (vec [1; 2; 3; 4]%Q [0; 0; 0; 0]%Q) (1 # 2)%Q
                eq_refl eq_refl eq_refl eq_refl)
      as (l & st' & o & Hnew & _).
    vm_compute in Hnew. injection Hnew as <- <-.
    eexists _, _. repeat split; reflexivity.
Defined.

(** X8 at a training pass, its backward pass, [ClearDeriv] and a pass that
    is not a training pass: the input still holds [[1; 2; 3; 4]]. *)
Lemma Dropout_run_defined_witness :
  exists st',
    Dropout_run dims_numel 1 (drop_layer (1 # 2))
      [DoForward (mkState 1) drop_draws; DoBackward (mkState 1);
       DoClearDeriv; DoForward (mkState 0) drop_draws] drop_store
      = Some st' /\
    data <$> deref st' (Some 0) = Some [1; 2; 3; 4]%Q.
Proof.
  destruct (Dropout_run_defined dims_numel 1 (drop_layer (1 # 2))
              [DoForward (mkState 1) drop_draws; DoBackward (mkState 1);
               DoClearDeriv; DoForward (mkState 0) drop_draws]
              drop_store (Some 0) (Some 2)
              (vec [1; 2; 3; 4]%Q [0; 0; 0; 0]%Q)
              (vec [0; 0; 0; 0]%Q [1; 1; 1; 1]%Q)
              (vec [0; 0; 0; 0]%Q [0; 0; 0; 0]%Q))
    as (st' & im' & om' & mm' & Hrun & Hok & Hdata); [by repeat split|].
  exists st'. split; [exact Hrun|].
  destruct Hok as (_ & _ & _ & _ & _ & -> & _). simpl. by rewrite Hdata.
Defined.

(** X9 with the gradient [[1; 1; 1; 1]] in the output. *)
Lemma LayerDropout_ClearDeriv_spec_witness :
  exists st',
    LayerDropout_ClearDeriv (drop_layer (1 # 2)) drop_store = Some st' /\
    deriv <$> deref st' (Some 2) = Some [0; 0; 0; 0]%Q /\
    deriv <$> deref st' (Some 1) = Some [0; 0; 0; 0]%Q /\
    deref st' (Some 0) = deref drop_store (Some 0) /\
    LayerDropout_ClearDeriv (drop_layer (1 # 2)) st' = Some st'.
Proof.
  destruct (LayerDropout_ClearDeriv_spec dims_numel (drop_layer (1 # 2))
              drop_store (Some 0) (Some 2)
              (vec [1; 2; 3; 4]%Q [0; 0; 0; 0]%Q)
              (vec [0; 0; 0; 0]%Q [1; 1; 1; 1]%Q)
              (vec [0; 0; 0; 0]%Q [0; 0; 0; 0]%Q))
    as (st' & Hrun & Ho & Hm & Hf & Hidem); [by repeat split|].
  cbn [mask_ drop_layer] in Hm, Hf.
  exists st'. rewrite Ho, Hm. repeat split; try done.
  by apply Hf.
Defined.

(** X10 with the mask [[2; 0; 2; 0]] and the gradient [[1; 1; 1; 1]] in the
    output: two calls add [[4; 0; 4; 0]] to the gradient of the input and
    [[2; 4; 6; 8]] to that of the mask. *)
Lemma Dropout_Backward_twice_witness :
  exists st1 st2,
    LayerDropout_Backward dims_numel (drop_layer (1 # 2)) (mkState 1)
      [vec [1; 2; 3; 4]%Q [0; 0; 0; 0]%Q; vec [2; 0; 2; 0]%Q [0; 0; 0; 0]%Q;
       vec [2; 0; 6; 0]%Q [1; 1; 1; 1]%Q] = Some st1 /\
    LayerDropout_Backward dims_numel (drop_layer (1 # 2)) (mkState 1) st1
      = Some st2 /\
    deriv <$> deref st2 (Some 0) = Some [4; 0; 4; 0]%Q /\
    deriv <$> deref st2 (Some 1) = Some [2; 4; 6; 8]%Q.
Proof.
  destruct (Dropout_Backward_twice dims_numel (drop_layer (1 # 2))
              [vec [1; 2; 3; 4]%Q [0; 0; 0; 0]%Q;
               vec [2; 0; 2; 0]%Q [0; 0; 0; 0]%Q;
               vec [2; 0; 6; 0]%Q [1; 1; 1; 1]%Q]
              (Some 0) (Some 2)
              (vec [1; 2; 3; 4]%Q [0; 0; 0; 0]%Q)
              (vec [2; 0; 6; 0]%Q [1; 1; 1; 1]%Q)
              (vec [2; 0; 2; 0]%Q [0; 0; 0; 0]%Q)
              (mkState 1) (mkState 1))
    as (st1 & st2 & Hrun1 & Hrun2 & Hi & Hm & _); [by repeat split|].
  cbn [mask_ drop_layer] in Hm.
  exists st1, st2. rewrite Hi, Hm. repeat split; done.
Defined.

(** X11 at the input [[1; 2; 3; 4]] with the probability one quarter and
    draws that are three quarters and one quarter in turn: no element is
    dropped, and each is scaled by 4/3. *)
Lemma Dropout_Forward_random_branch_witness :
  exists st',
    LayerDropout_Forward dims_numel 1 (drop_layer (1 # 4)) (mkState 1)
      drop_draws drop_store = Some st' /\
    data <$> deref st' (Some 1) = Some [4 # 3; 4 # 3; 4 # 3; 4 # 3]%Q /\
    data <$> deref st' (Some 2) = Some [4 # 3; 8 # 3; 4; 16 # 3]%Q.
Proof.
  destruct (Dropout_Forward_random_branch dims_numel 1
              (drop_layer (1 # 4)) drop_store (Some 0) (Some 2)
              (vec [1; 2; 3; 4]%Q [0; 0; 0; 0]%Q)
              (vec [0; 0; 0; 0]%Q [1; 1; 1; 1]%Q)
              (vec [0; 0; 0; 0]%Q [0; 0; 0; 0]%Q)
              (mkState 1) drop_draws)
    as (st' & Hrun & Hm & Ho & _);
    [by repeat split | reflexivity | reflexivity | reflexivity |].
  cbn [mask_ drop_layer] in Hm.
  exists st'. rewrite Hm, Ho. repeat split; done.
Defined.

(** X12 at the product of [[2; 3]] and [[5; 7]]: after a forward pass, two
    backward passes and a forward pass, the inputs hold their values. *)
Lemma EltwiseMult_run_defined_witness :
  exists st',
    EltwiseMult_run dims_numel mult_layer
      [(true, mkState 1); (false, mkState 1); (false, mkState 1);
       (true, mkState 0)] mult_store = Some st' /\
    data <$> deref st' (Some 0) = Some [2; 3]%Q /\
    data <$> deref st' (Some 1) = Some [5; 7]%Q.
Proof.
  destruct (EltwiseMult_run_defined dims_numel mult_layer
              [(true, mkState 1); (false, mkState 1); (false, mkState 1);
               (true, mkState 0)] mult_store
              (Some 0) (Some 1) (Some 2)
              (vec [2; 3]%Q [0; 0]%Q) (vec [5; 7]%Q [0; 0]%Q)
              (vec [0; 0]%Q [1; 1]%Q))
    as (st' & am' & bm' & om' & Hrun & Hok & Ha & Hb); [by repeat split|].
  exists st'. split; [exact Hrun|].
  destruct Hok as (_ & _ & _ & _ & -> & -> & _). simpl.
  by rewrite Ha, Hb.
Defined.

(** X13 at the product of [[2; 3]] and [[5; 7]]. *)
Lemma EltwiseMult_Forward_idempotent_witness :
  exists st',
    LayerEltwiseMult_Forward dims_numel mult_layer (mkState 1) mult_store
      = Some st' /\
    LayerEltwiseMult_Forward dims_numel mult_layer (mkState 0) st'
      = Some st'.
Proof.
  apply (EltwiseMult_Forward_idempotent dims_numel mult_layer mult_store
           (Some 0) (Some 1) (Some 2)
           (vec [2; 3]%Q [0; 0]%Q) (vec [5; 7]%Q [0; 0]%Q)
           (vec [0; 0]%Q [1; 1]%Q) (mkState 1) (mkState 0)).
  by repeat split.
Defined.
